(** * The Region Vectorizer: outer-loop vectorization pass

    A shallow embedding of [src/passes/LoopVectorizer.cpp] and of
    [IsHipSYCLKernel] from [src/annotations.cpp], with the properties the
    specification states about them.

    Conventions.
    - C++ [int] is a [Z] kept in the signed 32-bit range by [to_int];
      [size_t] and [iter_t] are a [Z] kept in the unsigned 64-bit range by
      [to_size_t]; [int64_t] values are plain [Z].
    - The IR is explicit state.  A call of the pass is a function from the
      IR to an outcome, the IR it leaves behind and the list of calls it
      made to its collaborators (cost model, remainder transform,
      vectorization engine).
    - [llvm_unreachable] is the outcome [Fatal].
    - Diagnostic output ([Report], [errs], [IF_DEBUG], [viewCFG]) and the
      invalidation of cached analyses are not part of the model. *)

From Stdlib Require Import ZArith List String Ascii Bool Lia.
From stdpp Require Import base gmap strings.

Import ListNotations.
Local Open Scope string_scope.
Local Open Scope list_scope.
Local Open Scope Z_scope.

(** ** Machine integers *)

Module MachineInt.

Definition int_min : Z := - 2 ^ 31.
Definition int_max : Z := 2 ^ 31 - 1.
Definition size_max : Z := 2 ^ 64 - 1.

(** Conversion to [int]: reduction modulo 2^32 into the signed range. *)
Definition to_int (z : Z) : Z := (z + 2 ^ 31) mod 2 ^ 32 - 2 ^ 31.

(** Conversion to [size_t]: reduction modulo 2^64. *)
Definition to_size_t (z : Z) : Z := z mod 2 ^ 64.

Definition fits_int (z : Z) : bool := (int_min <=? z) && (z <=? int_max).

End MachineInt.
Import MachineInt.

(** ** [atoi] of the C library

    Leading white space is skipped, one optional sign is read, then decimal
    digits up to the first other character.  A text without digits gives 0.
    The C standard leaves a value outside [int] undefined; the model reduces
    it with [to_int]. *)

Module CLib.

Definition isspace (c : ascii) : bool :=
  let n := nat_of_ascii c in
  (n =? 32)%nat || ((9 <=? n)%nat && (n <=? 13)%nat).

Definition isdigit (c : ascii) : bool :=
  let n := nat_of_ascii c in (48 <=? n)%nat && (n <=? 57)%nat.

Definition digit_value (c : ascii) : Z := Z.of_nat (nat_of_ascii c) - 48.

Fixpoint skip_spaces (s : string) : string :=
  match s with
  | String c rest => if isspace c then skip_spaces rest else s
  | EmptyString => s
  end.

Fixpoint read_digits (s : string) (acc : Z) : Z :=
  match s with
  | String c rest =>
      if isdigit c then read_digits rest (acc * 10 + digit_value c) else acc
  | EmptyString => acc
  end.

Definition atoi (s : string) : Z :=
  match skip_spaces s with
  | String "-" rest => to_int (- read_digits rest 0)
  | String "+" rest => to_int (read_digits rest 0)
  | t => to_int (read_digits t 0)
  end.

End CLib.
Import CLib.

(** ** Loop annotations ([rv/analysis/loopAnnotations.h])

    Modelled from the spec: the declaration of [LoopMD] is not among the
    sources.  "A mapping of optional flags attached to a loop:
    [vectorizeEnable] (tri-state), [alreadyVectorized] (bool),
    [explicitVectorWidth] (optional positive integer), [minDepDist] (minimum
    loop-carried dependence distance, integer or unbounded/parallel)".  The
    code reads the fields with [isSet], [get] and [safeGet], so every field
    is optional.  [iter_t] is taken to be [size_t], the type the code
    converts the distance to. *)

Record LoopMD := mkLoopMD {
  alreadyVectorized : option bool;
  vectorizeEnable : option bool;
  minDepDist : option Z;
  explicitVectorWidth : option Z
}.

Definition emptyMD : LoopMD := mkLoopMD None None None None.

Definition isSet {A} (o : option A) : bool :=
  match o with Some _ => true | None => false end.

Definition safeGet {A} (o : option A) (defVal : A) : A :=
  match o with Some a => a | None => defVal end.

#[global] Instance LoopMD_eq_dec : EqDecision LoopMD.
Proof. solve_decision. Defined.

(** ** Loops

    The attributes of an [llvm::Loop] the pass reads.  [backedgeTakenCount]
    is [Some c] when scalar evolution gives the backedge-taken count as a
    constant, [c] being what [getSExtValue] reads of it (the constant
    sign-extended from its own width to 64 bits), and [None] otherwise;
    [backedgeTakenCountBits] is the width in bits of that constant's
    type. *)

(** The terminator of an exiting block.  A [BranchInst] that ends an
    exiting block of a loop has two successors, one in the loop and one
    outside: it is a two-way conditional branch. *)
Inductive Terminator := TermBranch | TermSwitch | TermReturn | TermOther.

Record Loop := mkLoop {
  loopId : nat;
  isAnnotatedParallel : bool;
  getHeader : nat;
  loopBlocks : list nat;
  (** the single exiting block with its terminator, if there is one *)
  getExitingBlock : option (nat * Terminator);
  backedgeTakenCount : option Z;
  backedgeTakenCountBits : Z
}.

Definition contains (L : Loop) (block : nat) : bool :=
  existsb (Nat.eqb block) (loopBlocks L).

Definition isaBranchInst (t : Terminator) : bool :=
  match t with TermBranch => true | _ => false end.

(** ** Trip count and trip alignment *)

Definition canVectorizeLoop (L : Loop) : bool :=
  if negb (isAnnotatedParallel L) then false
  else match getExitingBlock L with
       | None => false
       | Some (_, term) => if negb (isaBranchInst term) then false else true
       end.

Definition getTripCount (L : Loop) : Z :=
  match backedgeTakenCount L with
  | None => -1
  | Some BTCVal =>
      if (BTCVal <=? 1) || negb (to_int BTCVal =? BTCVal) then -1
      else to_int (BTCVal + 1)
  end.

Definition getTripAlignment (L : Loop) : Z :=
  let tripCount := getTripCount L in
  if 0 <? tripCount then tripCount else 1.

Definition canAdjustTripCount (L : Loop) (VectorWidth TripCount : Z) : bool :=
  if VectorWidth =? TripCount then true else false.

(** The number of times the backedge is taken, when it is a known
    constant: the unsigned number of [backedgeTakenCountBits] bits that
    [getSExtValue] reads as [backedgeTakenCount]. *)
Definition backedgeTrips (L : Loop) : option Z :=
  match backedgeTakenCount L with
  | Some c => Some (c mod 2 ^ backedgeTakenCountBits L)
  | None => None
  end.

(** The exact trip count of a loop: one more than the number of times the
    backedge is taken, when that number is a known constant. *)
Definition exactTripCount (L : Loop) : option Z :=
  match backedgeTrips L with
  | Some trips => Some (trips + 1)
  | None => None
  end.

(** The constant is one [getSExtValue] can read, of 1 to 64 bits, and
    [backedgeTakenCount] is a reading of that width. *)
Definition countFitsItsType (L : Loop) : Prop :=
  1 <= backedgeTakenCountBits L <= 64
  /\ forall c,
      backedgeTakenCount L = Some c ->
      - 2 ^ (backedgeTakenCountBits L - 1) <= c
      < 2 ^ (backedgeTakenCountBits L - 1).

(** The trip alignment as the specification words it. *)
Definition specTripAlignment (L : Loop) : Z :=
  match exactTripCount L with
  | Some T => if (0 <=? T) && fits_int T && (1 <? T) then T else 1
  | None => 1
  end.

(** ** Instructions, values and reductions *)

Record Instruction := mkInst {
  instId : nat;
  getParent : nat;      (** the block the instruction is in *)
  isPHINode : bool
}.

(** A user of an instruction is an instruction or some other value, for
    which [dyn_cast<Instruction>] gives null. *)
Inductive Value :=
| ValInst (i : Instruction)
| ValOther (v : nat).

#[global] Instance Instruction_eq_dec : EqDecision Instruction.
Proof. solve_decision. Defined.

#[global] Instance Value_eq_dec : EqDecision Value.
Proof. solve_decision. Defined.

(** Modelled from the spec: [RedKind], [Reduction], [StridePattern] and
    [VectorShape] are declared in headers that are not among the sources.
    A reduction descriptor has "the element set (instructions forming the
    recurrence)" and "a kind tag"; the code names the kinds [Top]
    (conflicting) and [Bot] (not affine), every other kind is an
    associative reduction.  A vector shape is "uniform, strided(stride) or
    varying/unknown", and may be undefined. *)
Inductive RedKind := Bot | Top | Associative (op : nat).

Record Reduction := mkReduction {
  elements : list Instruction;
  kind : RedKind
}.

Record StridePattern := mkStridePattern { strideValue : Z }.

Inductive VectorShape :=
| ShapeUndefined
| ShapeUniform
| ShapeStrided (stride : Z)
| ShapeVarying.

Definition isDefined (s : VectorShape) : bool :=
  match s with ShapeUndefined => false | _ => true end.

(** [red.elements.count(userInst)] *)
Definition count (els : list Instruction) (i : Instruction) : bool :=
  existsb (fun e => Nat.eqb (instId e) (instId i)) els.

(** What [ReductionAnalysis] answers about a header phi. *)
Record ReductionAnalysis := mkReda {
  getStrideInfo : Instruction -> option StridePattern;
  getReductionInfo : Instruction -> option Reduction
}.

(** ** The IR

    The part of the function's IR the pass reads and writes: the
    annotations persisted as metadata on each loop, the users of each
    instruction and the instructions of each block. *)

Record IR := mkIR {
  loopMetadata : gmap nat LoopMD;
  instUsers : gmap nat (list Value);
  blockInstructions : gmap nat (list Instruction)
}.

#[global] Instance IR_eq_dec : EqDecision IR.
Proof. solve_decision. Defined.

Definition users (ir : IR) (inst : Instruction) : list Value :=
  default [] (instUsers ir !! instId inst).

Definition instructionsOf (ir : IR) (block : nat) : list Instruction :=
  default [] (blockInstructions ir !! block).

(** Modelled from the spec: [GetLoopAnnotation], [SetLLVMLoopAnnotations]
    and [ClearLoopVectorizeAnnotations] are defined in a file that is not
    among the sources.  The annotation is "read from persisted loop
    metadata", the store "round-trips exactly (write then read yields the
    same values)", writing adds the fields that are set, and clearing strips
    "any loop-vectorization-hint metadata" (the enable flag and the explicit
    width). *)
Definition GetLoopAnnotation (ir : IR) (L : Loop) : LoopMD :=
  default emptyMD (loopMetadata ir !! loopId L).

Definition orElse {A} (new old : option A) : option A :=
  match new with Some _ => new | None => old end.

Definition mergeMD (new old : LoopMD) : LoopMD :=
  {| alreadyVectorized := orElse (alreadyVectorized new) (alreadyVectorized old);
     vectorizeEnable := orElse (vectorizeEnable new) (vectorizeEnable old);
     minDepDist := orElse (minDepDist new) (minDepDist old);
     explicitVectorWidth :=
       orElse (explicitVectorWidth new) (explicitVectorWidth old) |}.

Definition withLoopMetadata (ir : IR) (md : gmap nat LoopMD) : IR :=
  {| loopMetadata := md;
     instUsers := instUsers ir;
     blockInstructions := blockInstructions ir |}.

Definition SetLLVMLoopAnnotations (L : Loop) (llvmLoopMD : LoopMD) (ir : IR)
  : IR :=
  withLoopMetadata ir
    (<[loopId L := mergeMD llvmLoopMD (GetLoopAnnotation ir L)]>
       (loopMetadata ir)).

Definition clearHints (md : LoopMD) : LoopMD :=
  {| alreadyVectorized := alreadyVectorized md;
     vectorizeEnable := None;
     minDepDist := minDepDist md;
     explicitVectorWidth := None |}.

Definition ClearLoopVectorizeAnnotations (L : Loop) (ir : IR) : IR :=
  withLoopMetadata ir (alter clearHints (loopId L) (loopMetadata ir)).

(** ** Calls the pass makes, and the pass monad

    An event records a call the pass makes, with the loop it is about; the
    list of events of a run is what the run shows beside its result and
    the IR it leaves. *)

Inductive Event :=
| CallVectorizeLoop (L : nat)
| CallPickWidthForRegion (L : nat) (initialWidth : Z)
| CallCreateVectorizableLoop (L : nat) (VectorWidth tripAlign : Z)
| CallSetLLVMLoopAnnotations (L : nat)
| CallClearLoopVectorizeAnnotations (L : nat)
| CallVectorize (L : nat) (VectorWidth : Z)
| ReturnVectorizeLoop (L : nat) (result : bool).

#[global] Instance Event_eq_dec : EqDecision Event.
Proof. solve_decision. Defined.

Inductive Outcome (A : Type) :=
| Done (a : A)
| Fatal.
Arguments Done {A} a.
Arguments Fatal {A}.

Definition Pass (A : Type) : Type := IR -> Outcome A * IR * list Event.

Definition ret {A} (a : A) : Pass A := fun ir => (Done a, ir, []).

Definition bind {A B} (c : Pass A) (k : A -> Pass B) : Pass B :=
  fun ir =>
    match c ir with
    | (Done a, ir1, t1) =>
        match k a ir1 with (o, ir2, t2) => (o, ir2, t1 ++ t2) end
    | (Fatal, ir1, t1) => (Fatal, ir1, t1)
    end.

Definition emit (e : Event) : Pass unit := fun ir => (Done tt, ir, [e]).
Definition getIR : Pass IR := fun ir => (Done ir, ir, []).
Definition modifyIR (f : IR -> IR) : Pass unit := fun ir => (Done tt, f ir, []).
Definition fatal {A} : Pass A := fun ir => (Fatal, ir, []).

Definition outcome {A} (r : Outcome A * IR * list Event) : Outcome A := r.1.1.
Definition finalIR {A} (r : Outcome A * IR * list Event) : IR := r.1.2.
Definition trace {A} (r : Outcome A * IR * list Event) : list Event := r.2.

Declare Scope pass_scope.
Delimit Scope pass_scope with pass.
Notation "'let*' x := c 'in' k" := (bind c (fun x => k))
  (at level 10, x name, c at level 100, k at level 200) : pass_scope.
Notation "'exec' c ; k" := (bind c (fun _ => k))
  (at level 10, c at level 100, k at level 200) : pass_scope.
Local Open Scope pass_scope.

(** ** Collaborators

    What the pass calls and the sources do not contain: the process
    environment, the constant [ParallelDistance], the cost model, the
    reduction analysis, the remainder transform, the shapes of patterns and
    the vectorization engine.  Each is taken as a parameter.

    The remainder transform gets the IR and the reduction analysis and
    leaves both changed; it gives the prepared loop, or nothing when it
    cannot handle the loop, and the values it found uniform. *)

Record RemainderResult := mkRemainderResult {
  preparedLoop : option Loop;
  uniOverrides : list Value;
  irAfter : IR;
  redaAfter : ReductionAnalysis
}.

Definition VectorizationInfo : Type := list (Value * VectorShape).

Record Collaborators := mkCollaborators {
  getenv : string -> option string;
  ParallelDistance : Z;
  pickWidthForRegion : IR -> Loop -> Z -> Z;
  analyze : IR -> Loop -> ReductionAnalysis;
  createVectorizableLoop :
    IR -> ReductionAnalysis -> Loop -> Z -> Z -> RemainderResult;
  strideShape : StridePattern -> Z -> VectorShape;
  reductionShape : Reduction -> Z -> VectorShape;
  (** [lowerRuntimeCalls], [analyze], [linearize] and [vectorize] of the
      engine; [None] when [vectorize] reports failure *)
  vectorize : IR -> Loop -> Z -> VectorizationInfo -> option IR
}.

(** ** Reduction legality *)

Definition IsSupportedReduction (ir : IR) (L : Loop) (red : Reduction) : bool :=
  forallb
    (fun inst =>
       forallb
         (fun itUser =>
            match itUser with
            | ValOther _ => false
            | ValInst userInst =>
                if contains L (getParent userInst)
                   && negb (count (elements red) userInst)
                then false else true
            end)
         (users ir inst))
    (elements red).

Section LoopVectorizer.

Context (env : Collaborators).

Definition setPinnedShape (v : Value) (s : VectorShape)
           (vecInfo : VectorizationInfo) : VectorizationInfo :=
  vecInfo ++ [(v, s)].

(** The loop over the header of the prepared loop (lines 271 to 315): the
    shape of every header phi, or [None] when a phi is rejected. *)
Fixpoint classifyHeaderPhis (ir : IR) (reda : ReductionAnalysis)
         (PreparedLoop : Loop) (VectorWidth : Z)
         (header : list Instruction) (vecInfo : VectorizationInfo)
  : option VectorizationInfo :=
  match header with
  | [] => Some vecInfo
  | phi :: rest =>
      let continue := classifyHeaderPhis ir reda PreparedLoop VectorWidth rest in
      if negb (isPHINode phi) then continue vecInfo
      else
        let pin phiShape :=
          if isDefined phiShape
          then continue (setPinnedShape (ValInst phi) phiShape vecInfo)
          else continue vecInfo in
        match getStrideInfo reda phi with
        | Some pat => pin (strideShape env pat VectorWidth)
        | None =>
            match getReductionInfo reda phi with
            | None => None
            | Some redInfo =>
                if negb (IsSupportedReduction ir PreparedLoop redInfo) then None
                else match kind redInfo with
                     | Top => None
                     | Bot => None
                     | Associative _ =>
                         pin (reductionShape env redInfo VectorWidth)
                     end
            end
        end
  end.

(** Width selection (lines 189 to 222): the width, or [None] when the cost
    model finds vectorization not beneficial. *)
Definition pickVectorWidth (L : Loop) (mdAnnot : LoopMD) (depDist : Z)
  : Pass (option Z) :=
  let hasFixedWidth := isSet (explicitVectorWidth mdAnnot) in
  let VectorWidth :=
    match explicitVectorWidth mdAnnot with
    | Some w => to_int w
    | None => to_int depDist
    end in
  let userWidthText := getenv env "RV_FORCE_WIDTH" in
  let hasFixedWidth :=
    match userWidthText with Some _ => true | None => hasFixedWidth end in
  let VectorWidth :=
    match userWidthText with Some text => atoi text | None => VectorWidth end in
  if negb hasFixedWidth then
    let initialWidth :=
      if VectorWidth =? 0 then depDist else to_size_t VectorWidth in
    exec emit (CallPickWidthForRegion (loopId L) initialWidth);
    let* ir := getIR in
    let refinedWidth := to_size_t (pickWidthForRegion env ir L initialWidth) in
    if refinedWidth <=? 1 then ret None
    else if negb (refinedWidth =? to_size_t VectorWidth)
         then ret (Some (to_int refinedWidth))
         else ret (Some VectorWidth)
  else ret (Some VectorWidth).

Definition alreadyVectorizedMD : LoopMD :=
  {| alreadyVectorized := Some true;
     vectorizeEnable := None;
     minDepDist := None;
     explicitVectorWidth := None |}.

(** The annotation the gate works on (lines 131 to 145): a loop annotated
    parallel has an unbounded dependence distance and is enabled. *)
Definition effectiveAnnotation (ir : IR) (L : Loop) : LoopMD :=
  let mdAnnot := GetLoopAnnotation ir L in
  if isAnnotatedParallel L
  then {| alreadyVectorized := alreadyVectorized mdAnnot;
          vectorizeEnable := Some true;
          minDepDist := Some (ParallelDistance env);
          explicitVectorWidth := explicitVectorWidth mdAnnot |}
  else mdAnnot.

(** From the remainder transform on: lines 230 to 381. *)
Definition prepareAndVectorize (L : Loop) (VectorWidth tripAlign : Z)
  : Pass bool :=
  let* ir := getIR in
  let reda := analyze env ir L in
  exec emit (CallCreateVectorizableLoop (loopId L) VectorWidth tripAlign);
  let remTrans := createVectorizableLoop env ir reda L VectorWidth tripAlign in
  exec modifyIR (fun _ => irAfter remTrans);
  match preparedLoop remTrans with
  | None => ret false
  | Some PreparedLoop =>
      exec emit (CallSetLLVMLoopAnnotations (loopId L));
      exec modifyIR (SetLLVMLoopAnnotations L alreadyVectorizedMD);
      exec emit (CallClearLoopVectorizeAnnotations (loopId PreparedLoop));
      exec modifyIR (ClearLoopVectorizeAnnotations PreparedLoop);
      let* ir := getIR in
      match classifyHeaderPhis ir (redaAfter remTrans) PreparedLoop VectorWidth
              (instructionsOf ir (getHeader PreparedLoop)) [] with
      | None => ret false
      | Some vecInfo =>
          let vecInfo :=
            fold_left (fun vi val => setPinnedShape val ShapeUniform vi)
                      (uniOverrides remTrans) vecInfo in
          exec emit (CallVectorize (loopId PreparedLoop) VectorWidth);
          match vectorize env ir PreparedLoop VectorWidth vecInfo with
          | None => fatal
          | Some vectorized => exec modifyIR (fun _ => vectorized); ret true
          end
      end
  end.

(** The gate (lines 152 to 171), then width selection and the rest. *)
Definition vectorizeLoopBody (L : Loop) : Pass bool :=
  let* ir := getIR in
  let mdAnnot := effectiveAnnotation ir L in
  if negb (safeGet (vectorizeEnable mdAnnot) false) then ret false
  else if safeGet (alreadyVectorized mdAnnot) false then ret false
  else
    let depDist := safeGet (minDepDist mdAnnot) (ParallelDistance env) in
    if depDist <=? 1 then ret false
    else
      let tripAlign := getTripAlignment L in
      let* width := pickVectorWidth L mdAnnot depDist in
      match width with
      | None => ret false
      | Some VectorWidth => prepareAndVectorize L VectorWidth tripAlign
      end.

(** [vectorizeLoop], with its call and its result put on record. *)
Definition vectorizeLoop (L : Loop) : Pass bool :=
  exec emit (CallVectorizeLoop (loopId L));
  let* result := vectorizeLoopBody L in
  exec emit (ReturnVectorizeLoop (loopId L) result);
  ret result.

End LoopVectorizer.

(** ** The loop nest and its traversal

    A loop of the loop forest together with its immediate sub-loops, in the
    order [LoopInfo] lists them. *)

#[local] Unset Elimination Schemes.
Inductive LoopNest := Nest (L : Loop) (subLoops : list LoopNest).
#[local] Set Elimination Schemes.

Definition nestLoop (N : LoopNest) : Loop :=
  match N with Nest L _ => L end.

Definition nestSubLoops (N : LoopNest) : list LoopNest :=
  match N with Nest _ subs => subs end.

(** The loop [for (SubL : loops) Changed |= visit(SubL)]. *)
Definition forEachLoop (visit : LoopNest -> Pass bool)
  : list LoopNest -> bool -> Pass bool :=
  fix each (loops : list LoopNest) (Changed : bool) : Pass bool :=
    match loops with
    | [] => ret Changed
    | SubL :: rest =>
        let* c := visit SubL in
        each rest (Changed || c)
    end.

Fixpoint vectorizeLoopOrSubLoops (env : Collaborators) (N : LoopNest)
  : Pass bool :=
  match N with
  | Nest L subs =>
      let* vectorized := vectorizeLoop env L in
      if vectorized then ret true
      else forEachLoop (vectorizeLoopOrSubLoops env) subs false
  end.

(** ** Functions, module annotations and the pass entry point *)

(** One entry of the [llvm.global.annotations] array: the annotated global
    (the function it is, if it is one) and the annotation text. *)
Record AnnotationEntry := mkAnnotationEntry {
  AnnotFunc : option nat;
  Annotation : string
}.

Record GlobalVariable := mkGlobalVariable {
  getName : string;
  annotationEntries : list AnnotationEntry
}.

Record Function := mkFunction {
  functionId : nat;
  (** [F.getParent()->globals()] *)
  globals : list GlobalVariable;
  (** the top-level loops [LoopInfo] finds in the function *)
  topLevelLoops : list LoopNest
}.

Definition isFunction (f : option nat) (F : Function) : bool :=
  match f with
  | Some id => Nat.eqb id (functionId F)
  | None => false
  end.

Definition IsHipSYCLKernel (F : Function) : bool :=
  existsb
    (fun I =>
       if String.eqb (getName I) "llvm.global.annotations" then
         existsb
           (fun CS =>
              String.eqb (Annotation CS) "hipsycl_nd_kernel"
              && isFunction (AnnotFunc CS) F)
           (annotationEntries I)
       else false)
    (globals F).

Definition run (env : Collaborators) (F : Function) : Pass bool :=
  if isSet (getenv env "RV_DISABLE") then ret false
  else if negb (IsHipSYCLKernel F) then ret false
  else forEachLoop (vectorizeLoopOrSubLoops env) (topLevelLoops F) false.

(** The loops of a nest, outermost first. *)
Fixpoint loopsOfNest (N : LoopNest) : list Loop :=
  match N with
  | Nest L subs => L :: flat_map loopsOfNest subs
  end.

(** Which loops a trace shows as entered, and which as vectorized. *)
Definition visited (t : list Event) (L : nat) : Prop :=
  In (CallVectorizeLoop L) t.

Definition vectorized (t : list Event) (L : nat) : Prop :=
  In (ReturnVectorizeLoop L true) t.

Definition costModelInvoked (t : list Event) : Prop :=
  exists L w, In (CallPickWidthForRegion L w) t.

(** The events that bracket a call of [vectorizeLoop]. *)
Definition isLoopBoundary (e : Event) : bool :=
  match e with
  | CallVectorizeLoop _ | ReturnVectorizeLoop _ _ => true
  | _ => false
  end.

(** ** The remainder transform as specified

    Modelled from the spec: [RemainderTransform::createVectorizableLoop] is
    not among the sources.  "For a loop with known constant trip count T
    and chosen width W, the prepared main loop executes floor(T/W) vector
    iterations and the remainder executes T mod W scalar iterations"; the
    main loop's "body is unchanged", "any leftover iterations execute in a
    separately generated scalar remainder loop reachable after the main
    loop exits".  A vector iteration stands for W consecutive iterations of
    the original loop. *)

Module RemainderSpec.
Section Loops.

Local Open Scope nat_scope.

(** The observable state and what one iteration of the original loop,
the one with the given index, does to it. *)
Context {S : Type} (body : nat -> S -> S).

(** [count] iterations starting with iteration [first]. *)
Fixpoint iterate (first count : nat) (s : S) : S :=
match count with
| O => s
| Datatypes.S n => iterate (Datatypes.S first) n (body first s)
end.

Definition originalLoop (T : nat) (s : S) : S := iterate 0 T s.

Definition mainIterations (T W : nat) : nat := T / W.
Definition remainderIterations (T W : nat) : nat := T mod W.

(** Vector iteration [k] of width [W]: the lanes are the original
iterations [k*W], ..., [k*W + W - 1]. *)
Definition vectorIteration (W k : nat) (s : S) : S := iterate (k * W) W s.

Fixpoint vectorIterations (W first count : nat) (s : S) : S :=
match count with
| O => s
| Datatypes.S n =>
  vectorIterations W (Datatypes.S first) n (vectorIteration W first s)
end.

Definition mainLoop (T W : nat) (s : S) : S :=
vectorIterations W 0 (mainIterations T W) s.

Definition remainderLoop (T W : nat) (s : S) : S :=
iterate (W * mainIterations T W) (remainderIterations T W) s.

Definition preparedLoops (T W : nat) (s : S) : S :=
remainderLoop T W (mainLoop T W s).

End Loops.
End RemainderSpec.

(** ** What a run shows *)

(** The width the pass hands to the remainder transform: the width it
    commits to. *)
Fixpoint chosenWidth (t : list Event) : option Z :=
  match t with
  | [] => None
  | CallCreateVectorizableLoop _ VectorWidth _ :: _ => Some VectorWidth
  | _ :: rest => chosenWidth rest
  end.

(** The ids of the loops [vectorizeLoop] was called on, in call order. *)
Fixpoint visitedLoops (t : list Event) : list nat :=
  match t with
  | [] => []
  | CallVectorizeLoop L :: rest => L :: visitedLoops rest
  | _ :: rest => visitedLoops rest
  end.

(** The width the user forces: the environment text read by [atoi] if
    [RV_FORCE_WIDTH] is set, else the explicit width of the annotation. *)
Definition forcedWidth (env : Collaborators) (mdAnnot : LoopMD) : option Z :=
  match getenv env "RV_FORCE_WIDTH" with
  | Some text => Some (atoi text)
  | None =>
      match explicitVectorWidth mdAnnot with
      | Some w => Some (to_int w)
      | None => None
      end
  end.

(** The width the cost model is started from when no width is forced, and
    the width it answers. *)
Definition initialWidth (depDist : Z) : Z :=
  if to_int depDist =? 0 then depDist else to_size_t (to_int depDist).

Definition refinedWidth (env : Collaborators) (ir : IR) (L : Loop)
           (depDist : Z) : Z :=
  to_size_t (pickWidthForRegion env ir L (initialWidth depDist)).

(** The width [vectorizeLoop] selects for a loop past its gate: the forced
    width if there is one; else none when the cost model answers at most
    1, and the answer of the cost model, as an [int], when it is not the
    dependence distance. *)
Definition selectedWidth (env : Collaborators) (ir : IR) (L : Loop)
  : option Z :=
  let mdAnnot := effectiveAnnotation env ir L in
  let depDist := safeGet (minDepDist mdAnnot) (ParallelDistance env) in
  match forcedWidth env mdAnnot with
  | Some f => Some f
  | None =>
      let refined := refinedWidth env ir L depDist in
      if refined <=? 1 then None
      else if negb (refined =? to_size_t (to_int depDist))
           then Some (to_int refined)
           else Some (to_int depDist)
  end.

(** The three tests [vectorizeLoop] makes before it selects a width. *)
Definition passesGate (env : Collaborators) (ir : IR) (L : Loop) : bool :=
  let mdAnnot := effectiveAnnotation env ir L in
  safeGet (vectorizeEnable mdAnnot) false
  && negb (safeGet (alreadyVectorized mdAnnot) false)
  && negb (safeGet (minDepDist mdAnnot) (ParallelDistance env) <=? 1).

(** The function is named, with the text [hipsycl_nd_kernel], by an entry
    of a global called [llvm.global.annotations]. *)
Definition carriesKernelAnnotation (F : Function) : Prop :=
  exists I CS,
    In I (globals F) /\ getName I = "llvm.global.annotations"
    /\ In CS (annotationEntries I)
    /\ Annotation CS = "hipsycl_nd_kernel"
    /\ AnnotFunc CS = Some (functionId F).

(** A loop without a single exiting block ended by a branch. *)
Definition lacksSingleBranchExit (L : Loop) : bool :=
  match getExitingBlock L with
  | Some (_, term) => negb (isaBranchInst term)
  | None => true
  end.






(** The trip alignment the code computes, in terms of the exact trip
    count T: T itself when it is at least 3, at most the largest [int],
    and at most 2^(bits-1), so that the backedge-taken count T - 1 has the
    top bit of its type clear; and 1 in every other case. *)
Definition tripAlignmentOfLoop (L : Loop) : Z :=
  match exactTripCount L with
  | Some T =>
      if (2 <? T) && (T <=? int_max)
         && (T <=? 2 ^ (backedgeTakenCountBits L - 1))
      then T else 1
  | None => 1
  end.

(** What the traversal of a nest is to show, from any IR: the loops it
    calls [vectorizeLoop] on are loops of the nest in pre-order, and it
    answers true exactly when one of them was vectorized. *)
Definition TraversalSound (env : Collaborators) (N : LoopNest) : Prop :=
  forall ir,
    visitedLoops (trace (vectorizeLoopOrSubLoops env N ir))
      `sublist_of` map loopId (loopsOfNest N)
    /\ forall b,
        outcome (vectorizeLoopOrSubLoops env N ir) = Done b ->
        (b = true
         <-> exists l, vectorized (trace (vectorizeLoopOrSubLoops env N ir)) l).

(** ** The ways a call of [vectorizeLoop] can go *)

(** The result of [vectorizeLoop] once a width is selected: the events of
    width selection [t0], then those of [prepareAndVectorize]. *)
Definition throughPrepare (env : Collaborators) (L : Loop) (ir : IR)
           (t0 : list Event) (w : Z) : Outcome bool * IR * list Event :=
  match prepareAndVectorize env L w (getTripAlignment L) ir with
  | (Done r, ir', t) =>
      (Done r, ir',
       CallVectorizeLoop (loopId L) :: t0 ++ t
         ++ [ReturnVectorizeLoop (loopId L) r])
  | (Fatal, ir', t) => (Fatal, ir', CallVectorizeLoop (loopId L) :: t0 ++ t)
  end.

Inductive VectorizeLoopCase (env : Collaborators) (L : Loop) (ir : IR)
  : Outcome bool * IR * list Event -> Prop :=
| RejectedAtGate :
    VectorizeLoopCase env L ir
      (Done false, ir,
       [CallVectorizeLoop (loopId L); ReturnVectorizeLoop (loopId L) false])
| NotBeneficial (i : Z) :
    VectorizeLoopCase env L ir
      (Done false, ir,
       [CallVectorizeLoop (loopId L); CallPickWidthForRegion (loopId L) i;
        ReturnVectorizeLoop (loopId L) false])
| WidthForced (w : Z) :
    VectorizeLoopCase env L ir (throughPrepare env L ir [] w)
| WidthRefined (i w : Z) :
    VectorizeLoopCase env L ir
      (throughPrepare env L ir [CallPickWidthForRegion (loopId L) i] w).

(** ** The header of the prepared loop, phi by phi *)

(** What the loop over the header decides for one phi: it is taken when it
    has a stride pattern, or else a reduction descriptor that passes
    [IsSupportedReduction] and is of neither kind [Top] nor kind [Bot]. *)
Definition phiAccepted (ir : IR) (reda : ReductionAnalysis)
           (PreparedLoop : Loop) (phi : Instruction) : bool :=
  match getStrideInfo reda phi with
  | Some _ => true
  | None =>
      match getReductionInfo reda phi with
      | None => false
      | Some redInfo =>
          IsSupportedReduction ir PreparedLoop redInfo
          && match kind redInfo with
             | Associative _ => true
             | Top | Bot => false
             end
      end
  end.

(** The shape the loop derives for a phi it takes. *)
Definition phiShapeOf (env : Collaborators) (reda : ReductionAnalysis)
           (VectorWidth : Z) (phi : Instruction) : VectorShape :=
  match getStrideInfo reda phi with
  | Some pat => strideShape env pat VectorWidth
  | None =>
      match getReductionInfo reda phi with
      | Some redInfo => reductionShape env redInfo VectorWidth
      | None => ShapeUndefined
      end
  end.

(** The phis of a header whose shape is defined, each with its shape, in
    the order of the header. *)
Definition pinnedPhis (env : Collaborators) (reda : ReductionAnalysis)
           (VectorWidth : Z) (header : list Instruction) : VectorizationInfo :=
  map (fun phi => (ValInst phi, phiShapeOf env reda VectorWidth phi))
      (List.filter
         (fun phi => isPHINode phi
                     && isDefined (phiShapeOf env reda VectorWidth phi))
         header).

(** ** The nests of a nest *)

(** A nest and all the nests inside it, outermost first. *)
Fixpoint nestsOf (N : LoopNest) : list LoopNest :=
  match N with
  | Nest L subs => Nest L subs :: flat_map nestsOf subs
  end.

(** The loops strictly inside a nest. *)
Definition descendants (N : LoopNest) : list Loop :=
  flat_map loopsOfNest (nestSubLoops N).

(** What the traversal of a nest is to show besides [TraversalSound]: a
    loop shown as vectorized was tried, and no loop strictly inside a loop
    shown as vectorized was tried. *)
Definition TraversalPrunes (env : Collaborators) (N : LoopNest) : Prop :=
  forall ir,
    (forall l,
        vectorized (trace (vectorizeLoopOrSubLoops env N ir)) l ->
        In l (visitedLoops (trace (vectorizeLoopOrSubLoops env N ir))))
    /\ (NoDup (map loopId (loopsOfNest N)) ->
        forall M D,
          In M (nestsOf N) ->
          vectorized (trace (vectorizeLoopOrSubLoops env N ir))
                     (loopId (nestLoop M)) ->
          In D (descendants M) ->
          ~ In (loopId D) (visitedLoops (trace (vectorizeLoopOrSubLoops env N ir)))).

(** ** The pass wrappers *)

Inductive PreservedAnalyses := PreservedNone | PreservedAll.

Definition LoopVectorizerLegacyPass_runOnFunction (env : Collaborators)
           (F : Function) : Pass bool :=
  run env F.

Definition LoopVectorizerWrapperPass_run (env : Collaborators) (F : Function)
  : Pass PreservedAnalyses :=
  let* changed := run env F in
  if changed then ret PreservedNone else ret PreservedAll.

(** ** Function and phi annotations ([src/annotations.cpp])

    A function carries a set of attributes and metadata nodes by kind
    name; a phi carries metadata nodes by kind name.  A metadata node is
    the list of its operands. *)

Module Annotations.

Inductive Attribute := AlwaysInline | NoInline | OtherAttribute (n : nat).

#[global] Instance Attribute_eq_dec : EqDecision Attribute.
Proof. solve_decision. Defined.

Definition attributeCode (a : Attribute) : nat :=
  match a with
  | AlwaysInline => 0
  | NoInline => 1
  | OtherAttribute n => S (S n)
  end.

Definition attributeOfCode (c : nat) : Attribute :=
  match c with
  | O => AlwaysInline
  | S O => NoInline
  | S (S n) => OtherAttribute n
  end.

#[global] Program Instance Attribute_countable : Countable Attribute :=
  inj_countable' attributeCode attributeOfCode _.
Next Obligation. now intros [| | n]. Qed.

Inductive Metadata := MDString (text : string) | MDOtherOperand (n : nat).

#[global] Instance Metadata_eq_dec : EqDecision Metadata.
Proof. solve_decision. Defined.

Record LLVMFunction := mkLLVMFunction {
  fnAttributes : gset Attribute;
  fnMetadata : gmap string (list Metadata)
}.

Record PHINode := mkPHINode {
  phiInstruction : Instruction;
  phiMetadata : gmap string (list Metadata)
}.

Definition rv_atomic_string : string := "rv_atomic".
Definition rv_redkind_string : string := "rv_redkind".

Definition IsCriticalSection (func : LLVMFunction) : bool :=
  match fnMetadata func !! rv_atomic_string with
  | Some _ => true
  | None => false
  end.

Definition MarkAsCriticalSection (func : LLVMFunction) : LLVMFunction :=
  let attrs := fnAttributes func ∖ {[ AlwaysInline ]} in
  let attrs := attrs ∪ {[ NoInline ]} in
  {| fnAttributes := attrs;
     fnMetadata := <[rv_atomic_string := []]> (fnMetadata func) |}.

(** The outcome of a function that checks itself with [assert]. *)
Inductive Asserted (A : Type) :=
| Passed (a : A)
| AssertionFailed.
Arguments Passed {A} a.
Arguments AssertionFailed {A}.

Section ReductionHints.

(** The names of the reduction kinds: [to_string] and [from_string] are
    declared in a header that is not among the sources, and are taken as
    parameters; [from_string] gives nothing for a text it does not know. *)
Context (to_string : RedKind -> string)
        (from_string : string -> option RedKind).

Definition SetReductionHint (loopHeaderPhi : PHINode) (redKind : RedKind)
  : PHINode :=
  let redKindText := to_string redKind in
  let redKindNode := MDString redKindText in
  let boxedNode := [redKindNode] in
  {| phiInstruction := phiInstruction loopHeaderPhi;
     phiMetadata := <[rv_redkind_string := boxedNode]> (phiMetadata loopHeaderPhi) |}.

Definition ReadReductionHint (loopHeaderPhi : PHINode) : Asserted RedKind :=
  match phiMetadata loopHeaderPhi !! rv_redkind_string with
  | None => Passed Bot
  | Some boxedHint =>
      match boxedHint with
      | [] => AssertionFailed
      | MDString text :: _ =>
          match from_string text with
          | Some kind => Passed kind
          | None => AssertionFailed
          end
      | MDOtherOperand _ :: _ => AssertionFailed
      end
  end.

End ReductionHints.

End Annotations.

(** ** Pass pipelines ([src/passes.cpp], [src/registerPasses.cpp])

    A pass manager is the list of the passes added to it, in the order
    they run. *)

Module Pipeline.

Inductive FunctionPass :=
| LoopSimplifyPass
| LCSSAPass
| LoopExitCanonicalizerWrapperPass
| AggressiveInstCombinePass
| ADCEPass
| LoopVectorizerWrapperPass
| LowerRVIntrinsicsWrapperPass
| IRPolisherWrapperPass.

Inductive ModulePass :=
| AlwaysInlinerPass
| WFVWrapperPass
| ModuleToFunctionPassAdaptor (FPM : list FunctionPass).

Inductive LegacyPass :=
| IRPolisherLegacyPass
| WFVLegacyPass
| LoopVectorizerLegacyPass
| LowerRVIntrinsicsLegacyPass
| OtherLegacyPass (name : string).

#[global] Instance FunctionPass_eq_dec : EqDecision FunctionPass.
Proof. solve_decision. Defined.

#[global] Instance LegacyPass_eq_dec : EqDecision LegacyPass.
Proof. solve_decision. Defined.

Definition addPreparatoryPasses (FPM : list FunctionPass) : list FunctionPass :=
  FPM ++ [LoopSimplifyPass; LCSSAPass; LoopExitCanonicalizerWrapperPass].

Definition addCleanupPasses (MPM : list ModulePass) : list ModulePass :=
  let MPM := MPM ++ [AlwaysInlinerPass] in
  let FPM := [] in
  let FPM := FPM ++ [AggressiveInstCombinePass] in
  let FPM := FPM ++ [ADCEPass] in
  MPM ++ [ModuleToFunctionPassAdaptor FPM].

Definition addLowerBuiltinsPass (FPM : list FunctionPass) : list FunctionPass :=
  FPM ++ [LowerRVIntrinsicsWrapperPass].

(** The command-line options of [registerPasses.cpp]. *)
Record Options := mkOptions {
  rvLowerBuiltins : bool;
  rvLoopVecEnabled : bool;
  rvWFVEnabled : bool;
  rvOnlyPolish : bool;
  rvVectorizeEnabled : bool
}.

Definition mayVectorize (o : Options) : bool :=
  rvWFVEnabled o || rvLoopVecEnabled o || rvVectorizeEnabled o.

Definition shouldRunWFVPass (o : Options) : bool :=
  rvWFVEnabled o || rvVectorizeEnabled o.

Definition shouldRunLoopVecPass (o : Options) : bool :=
  rvLoopVecEnabled o || rvVectorizeEnabled o.

Definition shouldLowerBuiltins (o : Options) : bool := rvLowerBuiltins o.

Section LegacyRegistration.

(** [addPreparatoryLegacyPasses] and [addCleanupLegacyPasses] are defined
    in a file that is not among the sources.  A legacy pass manager only
    takes passes at its end, so each is taken as the list of passes it
    adds. *)
Context (preparatoryLegacyPasses cleanupLegacyPasses : list LegacyPass).

Definition registerLegacyRVPasses (o : Options) (PM : list LegacyPass)
  : list LegacyPass :=
  if rvOnlyPolish o then PM ++ [IRPolisherLegacyPass]
  else
    let PM := if mayVectorize o then PM ++ preparatoryLegacyPasses else PM in
    let PM := if shouldRunWFVPass o then PM ++ [WFVLegacyPass] else PM in
    let PM :=
      if shouldRunLoopVecPass o then PM ++ [LoopVectorizerLegacyPass] else PM in
    if mayVectorize o then PM ++ cleanupLegacyPasses else PM.

End LegacyRegistration.

Definition registerLastRVLegacyPasses (o : Options) (PM : list LegacyPass)
  : list LegacyPass :=
  if shouldLowerBuiltins o then PM ++ [LowerRVIntrinsicsLegacyPass] else PM.

(** The two callbacks [addConfiguredRVPasses] registers: at the start of
    the vectorizer and at the end of the optimizer. *)
Definition vectorizerStartEPCallback (o : Options) (FPM : list FunctionPass)
  : list FunctionPass :=
  if rvOnlyPolish o then FPM ++ [IRPolisherWrapperPass]
  else
    let FPM := if mayVectorize o then addPreparatoryPasses FPM else FPM in
    if shouldRunLoopVecPass o then FPM ++ [LoopVectorizerWrapperPass] else FPM.

Definition optimizerLastEPCallback (o : Options) (MPM : list ModulePass)
  : list ModulePass :=
  let MPM := if shouldRunWFVPass o then MPM ++ [WFVWrapperPass] else MPM in
  let MPM :=
    if shouldLowerBuiltins o
    then MPM ++ [ModuleToFunctionPassAdaptor (addLowerBuiltinsPass [])]
    else MPM in
  if mayVectorize o then addCleanupPasses MPM else MPM.

End Pipeline.

(** ** Inputs the statements below are evaluated on *)

Module Examples.

Definition noInfo : ReductionAnalysis :=
  mkReda (fun _ => None) (fun _ => None).

Definition emptyIR : IR := mkIR ∅ ∅ ∅.

(** A loop over blocks 1 (header) and 2 (exiting, ended by a branch). *)
Definition simpleLoop (id : nat) (parallel : bool) (btc : option Z) : Loop :=
  mkLoop id parallel 1%nat [1%nat; 2%nat] (Some (2%nat, TermBranch)) btc 64.

(** The same loop with two exiting blocks, so without a single one. *)
Definition twoExitLoop (id : nat) : Loop :=
  mkLoop id true 1%nat [1%nat; 2%nat; 3%nat] None None 64.

(** The prepared loop an example transform hands back: a copy of the loop
    under a fresh id. *)
Definition cloneOf (L : Loop) : Loop :=
  mkLoop (100 + loopId L) false (getHeader L) (loopBlocks L)
         (getExitingBlock L) (backedgeTakenCount L) (backedgeTakenCountBits L).

(** A remainder transform that prepares every loop, and one that gives up
    on a loop without a single branch exit. *)
Definition acceptingTransform (ir : IR) (reda : ReductionAnalysis) (L : Loop)
           (VectorWidth tripAlign : Z) : RemainderResult :=
  mkRemainderResult (Some (cloneOf L)) [] ir reda.

Definition strictTransform (ir : IR) (reda : ReductionAnalysis) (L : Loop)
           (VectorWidth tripAlign : Z) : RemainderResult :=
  if lacksSingleBranchExit L then mkRemainderResult None [] ir reda
  else acceptingTransform ir reda L VectorWidth tripAlign.

(** Collaborators: [RV_FORCE_WIDTH] as given and no other variable set, a
    cost model that answers 8, an engine that succeeds. *)
Definition collaborators (forceWidth : option string)
           (reda : ReductionAnalysis)
           (transform : IR -> ReductionAnalysis -> Loop -> Z -> Z -> RemainderResult)
  : Collaborators :=
  {| getenv := fun name =>
       if String.eqb name "RV_FORCE_WIDTH" then forceWidth else None;
     ParallelDistance := size_max;
     pickWidthForRegion := fun _ _ _ => 8;
     analyze := fun _ _ => reda;
     createVectorizableLoop := transform;
     strideShape := fun pat _ => ShapeStrided (strideValue pat);
     reductionShape := fun _ _ => ShapeVarying;
     vectorize := fun ir _ _ _ => Some ir |}.

Definition plainEnv : Collaborators := collaborators None noInfo strictTransform.

(** A loop annotated parallel that runs 64 times. *)
Definition parallelLoop : Loop := simpleLoop 0 true (Some 63).

(** A loop whose backedge is taken once: it runs twice. *)
Definition twoTripLoop : Loop := simpleLoop 0 true (Some 1).

(** A loop whose backedge is taken 200 times, the count being a constant
    of 8 bits: [getSExtValue] reads it as -56. *)
Definition narrowCountLoop : Loop :=
  mkLoop 0 true 1%nat [1%nat; 2%nat] (Some (2%nat, TermBranch)) (Some (-56)) 8.

(** An enabled loop with the explicit width 8 in its annotation, and the
    environment forcing 4. *)
Definition width8IR : IR :=
  mkIR {[ 0%nat := mkLoopMD None (Some true) None (Some 8) ]} ∅ ∅.
Definition width8Loop : Loop := simpleLoop 0 false (Some 63).
Definition force4Env : Collaborators :=
  collaborators (Some "4") noInfo strictTransform.

(** The environment forcing the width 0. *)
Definition force0Env : Collaborators :=
  collaborators (Some "0") noInfo strictTransform.

(** A loop whose recorded dependence distance is 1. *)
Definition dist1IR : IR :=
  mkIR {[ 0%nat := mkLoopMD None (Some true) (Some 1) None ]} ∅ ∅.
Definition dist1Loop : Loop := simpleLoop 0 false (Some 63).

(** A sum reduction in the prepared loop: the header phi 10 and the add 11
    in block 2 use each other, and the add is also used by instruction 20
    in block 5, which is after the loop. *)
Definition sumPhi : Instruction := mkInst 10 1 true.
Definition sumAdd : Instruction := mkInst 11 2 false.
Definition sumExitUse : Instruction := mkInst 20 5 false.
Definition sumReduction : Reduction := mkReduction [sumPhi; sumAdd] (Associative 0).
Definition sumIR : IR :=
  mkIR ∅
       {[ 10%nat := [ValInst sumAdd];
          11%nat := [ValInst sumPhi; ValInst sumExitUse] ]}
       {[ 1%nat := [sumPhi]; 2%nat := [sumAdd]; 5%nat := [sumExitUse] ]}.
Definition sumReda : ReductionAnalysis :=
  mkReda (fun _ => None)
         (fun phi => if Nat.eqb (instId phi) 10 then Some sumReduction else None).
Definition sumEnv : Collaborators :=
  collaborators None sumReda strictTransform.


(** A header phi the reduction analysis knows nothing about. *)
Definition strayPhi : Instruction := mkInst 10 1 true.
Definition strayIR : IR := mkIR ∅ ∅ {[ 1%nat := [strayPhi] ]}.

(** A function that is a kernel, one that is not, and a nest of loops. *)
Definition innerNest : LoopNest := Nest (simpleLoop 2 true None) [].
Definition outerNest : LoopNest :=
  Nest (simpleLoop 1 false None) [innerNest; Nest (simpleLoop 3 false None) []].

Definition kernelTable (f : nat) : GlobalVariable :=
  mkGlobalVariable "llvm.global.annotations"
                   [mkAnnotationEntry (Some f) "hipsycl_nd_kernel"].

Definition kernelFunction : Function := mkFunction 7 [kernelTable 7] [outerNest].
Definition plainFunction : Function := mkFunction 8 [kernelTable 7] [outerNest].

End Examples.

(** * Properties *)

(** ** Machine integers *)

Lemma to_int_range z : int_min <= to_int z <= int_max.
Proof.
  unfold to_int, int_min, int_max.
  pose proof (Z.mod_pos_bound (z + 2 ^ 31) (2 ^ 32) ltac:(lia)). lia.
Qed.

Lemma to_int_fits z : int_min <= z <= int_max -> to_int z = z.
Proof.
  unfold to_int, int_min, int_max. intros Hz.
  rewrite Z.mod_small by lia. lia.
Qed.

Lemma to_int_fixed_iff z : to_int z = z <-> int_min <= z <= int_max.
Proof.
  split; [| apply to_int_fits].
  intros <-. apply to_int_range.
Qed.

Lemma to_size_t_range z : 0 <= to_size_t z <= size_max.
Proof.
  unfold to_size_t, size_max.
  pose proof (Z.mod_pos_bound z (2 ^ 64) ltac:(lia)). lia.
Qed.

Lemma to_size_t_small z : 0 <= z <= size_max -> to_size_t z = z.
Proof. unfold to_size_t, size_max. intros Hz. apply Z.mod_small. lia. Qed.

(** A negative [int] converted to [size_t] lands above the [int] range. *)
Lemma to_size_t_neg z : int_min <= z < 0 -> to_size_t z = z + 2 ^ 64.
Proof.
  unfold to_size_t, int_min. intros Hz.
  replace z with (z + 2 ^ 64 + (-1) * 2 ^ 64) at 1 by lia.
  rewrite Z.mod_add by lia. apply Z.mod_small. lia.
Qed.

(** An [int] whose [size_t] value is small is that value. *)
Lemma to_size_t_int_small z :
  int_min <= z <= int_max -> to_size_t z <= int_max -> to_size_t z = z.
Proof.
  intros Hz Hs. destruct (Z_lt_le_dec z 0) as [Hneg | Hpos].
  - rewrite to_size_t_neg in Hs by lia. unfold int_min, int_max in *. lia.
  - apply to_size_t_small. unfold int_max, size_max in *. lia.
Qed.

(** ** Trip alignment *)

Lemma pow2_width (bits : Z) :
  1 <= bits -> 0 < 2 ^ (bits - 1) /\ 2 ^ bits = 2 * 2 ^ (bits - 1).
Proof.
  intros Hbits. split; [apply Z.pow_pos_nonneg; lia |].
  replace bits with (Z.succ (bits - 1)) at 1 by lia.
  apply Z.pow_succ_r. lia.
Qed.

(** The unsigned number behind a signed reading of a given width. *)
Lemma unsigned_of_reading (bits c : Z) :
  1 <= bits ->
  - 2 ^ (bits - 1) <= c < 2 ^ (bits - 1) ->
  c mod 2 ^ bits = if c <? 0 then c + 2 ^ bits else c.
Proof.
  intros Hbits Hc. destruct (pow2_width bits Hbits) as [Hpos Hdouble].
  destruct (Z.ltb_spec c 0) as [Hneg | Hnonneg].
  - replace c with (c + 2 ^ bits + (-1) * 2 ^ bits) at 1 by lia.
    rewrite Z.mod_add by lia. apply Z.mod_small. lia.
  - apply Z.mod_small. lia.
Qed.

(** C8, as the code has it: for a loop whose constant backedge-taken
    count, if it has one, is of a type of 1 to 64 bits, the trip alignment
    is the exact trip count T (that count, an unsigned number of its type,
    plus one) when T is at least 3, at most the largest [int], and the
    count T - 1 has the top bit of its type clear, so that [getSExtValue]
    reads it as positive; it is 1 in every other case. *)
Theorem trip_alignment_of_exact_count (L : Loop) :
  countFitsItsType L ->
  getTripAlignment L = tripAlignmentOfLoop L.
Proof.
  intros [Hbits Hrange].
  unfold getTripAlignment, tripAlignmentOfLoop, exactTripCount, backedgeTrips,
    getTripCount.
  destruct (backedgeTakenCount L) as [c |]; [| reflexivity].
  specialize (Hrange c eq_refl).
  destruct (pow2_width _ (proj1 Hbits)) as [Hpos Hdouble].
  rewrite (unsigned_of_reading _ c (proj1 Hbits) Hrange).
  set (half := 2 ^ (backedgeTakenCountBits L - 1)) in *.
  destruct (Z.leb_spec c 1) as [Hle | Hgt]; cbn [orb].
  - cbn [Z.ltb Z.compare]. destruct (Z.ltb_spec c 0).
    + destruct (Z.leb_spec (c + 2 ^ backedgeTakenCountBits L + 1) half);
        [lia |]. now rewrite andb_false_r.
    + destruct (Z.ltb_spec 2 (c + 1)); [lia | reflexivity].
  - destruct (Z.ltb_spec c 0); [lia |].
    destruct (Z.ltb_spec 2 (c + 1)); [| lia].
    destruct (Z.leb_spec (c + 1) half); [| lia]. rewrite andb_true_r.
    cbn [andb].
    destruct (Z.eqb_spec (to_int c) c) as [Heq | Hne]; cbn [negb].
    + apply to_int_fixed_iff in Heq.
      destruct (Z.leb_spec (c + 1) int_max) as [Hin | Hout].
      * rewrite to_int_fits by (unfold int_min, int_max in *; lia).
        destruct (Z.ltb_spec 0 (c + 1)); [reflexivity | lia].
      * assert (c = int_max) as -> by lia. reflexivity.
    + assert (int_max < c) as Hbig.
      { destruct (Z_le_gt_dec c int_max); [| lia].
        exfalso. apply Hne, to_int_fits. unfold int_min in *. lia. }
      cbn. destruct (Z.leb_spec (c + 1) int_max); [lia | reflexivity].
Qed.

Lemma trip_alignment_of_exact_count_witness :
  countFitsItsType Examples.parallelLoop
  /\ exactTripCount Examples.parallelLoop = Some 64
  /\ getTripAlignment Examples.parallelLoop
     = tripAlignmentOfLoop Examples.parallelLoop.
Proof.
  assert (countFitsItsType Examples.parallelLoop) as Hfits.
  { split; [cbn; lia |]. intros c [= <-]. cbn. lia. }
  split; [exact Hfits |]. split; [reflexivity |].
  apply (trip_alignment_of_exact_count Examples.parallelLoop Hfits).
Defined.

(** A count with the top bit of its type set: the backedge of
    [Examples.narrowCountLoop] is taken 200 times and the loop runs 201
    times, but the count is read as -56 and the alignment is 1. *)
Example trip_alignment_of_narrow_count :
  countFitsItsType Examples.narrowCountLoop
  /\ backedgeTrips Examples.narrowCountLoop = Some 200
  /\ exactTripCount Examples.narrowCountLoop = Some 201
  /\ getTripAlignment Examples.narrowCountLoop = 1.
Proof.
  split; [| repeat split].
  split; [cbn; lia |]. intros c [= <-]. cbn. lia.
Qed.

(** C8, as the specification states it, fails for a loop that runs twice:
    its backedge-taken count is 1, the code gives the alignment 1 and the
    specification asks for 2. *)
Lemma trip_alignment_of_two_trip_loop :
  exactTripCount Examples.twoTripLoop = Some 2
  /\ getTripAlignment Examples.twoTripLoop = 1
  /\ specTripAlignment Examples.twoTripLoop = 2.
Proof. repeat split. Qed.

(** ** One call of [vectorizeLoop] *)

Section VectorizeLoopFacts.

Context (env : Collaborators).

(** The trace of a call is bracketed by its call and return events. *)
Lemma vectorizeLoop_unfold (L : Loop) (ir : IR) :
  vectorizeLoop env L ir =
  match vectorizeLoopBody env L ir with
  | (Done r, ir', t) =>
      (Done r, ir',
       CallVectorizeLoop (loopId L) :: t ++ [ReturnVectorizeLoop (loopId L) r])
  | (Fatal, ir', t) => (Fatal, ir', CallVectorizeLoop (loopId L) :: t)
  end.
Proof.
  unfold vectorizeLoop, bind, emit, ret.
  destruct (vectorizeLoopBody env L ir) as [[[r |] ir'] t]; reflexivity.
Qed.

Lemma vectorizeLoopBody_rejected_at_gate (L : Loop) (ir : IR) :
  passesGate env ir L = false ->
  vectorizeLoopBody env L ir = (Done false, ir, []).
Proof.
  unfold passesGate, vectorizeLoopBody, bind, getIR, ret. cbn zeta.
  destruct (safeGet (vectorizeEnable _) false); [| reflexivity].
  destruct (safeGet (alreadyVectorized _) false); [reflexivity |].
  destruct (_ <=? 1); [reflexivity | discriminate].
Qed.

Lemma vectorizeLoopBody_past_gate (L : Loop) (ir : IR) :
  passesGate env ir L = true ->
  vectorizeLoopBody env L ir =
  (let mdAnnot := effectiveAnnotation env ir L in
   let* width :=
     pickVectorWidth env L mdAnnot
       (safeGet (minDepDist mdAnnot) (ParallelDistance env)) in
   match width with
   | None => ret false
   | Some VectorWidth =>
       prepareAndVectorize env L VectorWidth (getTripAlignment L)
   end) ir.
Proof.
  unfold passesGate, vectorizeLoopBody. cbn zeta.
  unfold bind at 1. unfold getIR at 1. cbn iota.
  destruct (safeGet (vectorizeEnable _) false); [| discriminate].
  destruct (safeGet (alreadyVectorized _) false); [discriminate |].
  destruct (_ <=? 1); [discriminate |]. intros _. cbn [negb].
  destruct (bind _ _ ir) as [[o ir'] t]. reflexivity.
Qed.

(** With a forced width the cost model is not consulted. *)
Lemma pickVectorWidth_forced (L : Loop) (mdAnnot : LoopMD) (depDist f : Z)
      (ir : IR) :
  forcedWidth env mdAnnot = Some f ->
  pickVectorWidth env L mdAnnot depDist ir = (Done (Some f), ir, []).
Proof.
  unfold forcedWidth, pickVectorWidth. cbn zeta.
  destruct (getenv env "RV_FORCE_WIDTH") as [text |].
  - intros [= <-]. reflexivity.
  - destruct (explicitVectorWidth mdAnnot) as [w |]; [| discriminate].
    intros [= <-]. reflexivity.
Qed.

Lemma pickVectorWidth_cost_model (L : Loop) (mdAnnot : LoopMD) (depDist : Z)
      (ir : IR) :
  forcedWidth env mdAnnot = None ->
  pickVectorWidth env L mdAnnot depDist ir =
  (Done (if refinedWidth env ir L depDist <=? 1 then None
         else if negb (refinedWidth env ir L depDist =? to_size_t (to_int depDist))
              then Some (to_int (refinedWidth env ir L depDist))
              else Some (to_int depDist)),
   ir, [CallPickWidthForRegion (loopId L) (initialWidth depDist)]).
Proof.
  unfold forcedWidth, pickVectorWidth, refinedWidth, initialWidth. cbn zeta.
  destruct (getenv env "RV_FORCE_WIDTH") as [text |]; [discriminate |].
  destruct (explicitVectorWidth mdAnnot) as [w |]; [discriminate |].
  intros _. cbn [isSet negb]. unfold bind, emit, getIR, ret. cbn.
  destruct (_ <=? 1); [reflexivity |].
  destruct (negb _); reflexivity.
Qed.

(** The events from the remainder transform on: the call of the transform
    comes first, and the cost model is not among them. *)
Lemma prepareAndVectorize_trace (L : Loop) (w a : Z) (ir : IR) :
  exists rest,
    trace (prepareAndVectorize env L w a ir)
    = CallCreateVectorizableLoop (loopId L) w a :: rest
    /\ (forall l i, ~ In (CallPickWidthForRegion l i) rest)
    /\ (forall l, ~ In (CallVectorizeLoop l) rest)
    /\ (forall l r, ~ In (ReturnVectorizeLoop l r) rest).
Proof.
  unfold prepareAndVectorize, bind, getIR, emit, modifyIR, ret, fatal, trace.
  cbn.
  destruct (preparedLoop _) as [P |]; cbn.
  2: { eexists. split; [reflexivity |]. cbn. tauto. }
  destruct (classifyHeaderPhis _ _ _ _ _ _ _) as [vecInfo |]; cbn.
  2: { eexists. split; [reflexivity |]. cbn.
       repeat split; intros; intros [? | [? | ?]]; try discriminate; tauto. }
  destruct (vectorize _ _ _ _ _) as [ir' |]; cbn;
    (eexists; split; [reflexivity |]; cbn;
     repeat split; intros; intros [? | [? | [? | ?]]]; try discriminate; tauto).
Qed.

End VectorizeLoopFacts.

Section WidthSelection.

Context (env : Collaborators).

Lemma forcedWidth_effectiveAnnotation (ir : IR) (L : Loop) :
  forcedWidth env (effectiveAnnotation env ir L)
  = forcedWidth env (GetLoopAnnotation ir L).
Proof.
  unfold forcedWidth, effectiveAnnotation.
  now destruct (isAnnotatedParallel L).
Qed.

(** A loop rejected at the gate: nothing is called and the IR stays. *)
Lemma vectorizeLoop_rejected_at_gate (L : Loop) (ir : IR) :
  passesGate env ir L = false ->
  vectorizeLoop env L ir
  = (Done false, ir,
     [CallVectorizeLoop (loopId L); ReturnVectorizeLoop (loopId L) false]).
Proof.
  intros Hgate. rewrite vectorizeLoop_unfold.
  now rewrite vectorizeLoopBody_rejected_at_gate.
Qed.

(** Past the gate with a forced width: the remainder transform is called
    with that width, and the cost model is not called. *)
Lemma vectorizeLoop_trace_forced (L : Loop) (ir : IR) (f : Z) :
  passesGate env ir L = true ->
  forcedWidth env (GetLoopAnnotation ir L) = Some f ->
  exists rest,
    trace (vectorizeLoop env L ir)
    = CallVectorizeLoop (loopId L)
        :: CallCreateVectorizableLoop (loopId L) f (getTripAlignment L) :: rest
    /\ forall l i, ~ In (CallPickWidthForRegion l i) rest.
Proof.
  intros Hgate Hf. rewrite <- forcedWidth_effectiveAnnotation in Hf.
  rewrite vectorizeLoop_unfold, vectorizeLoopBody_past_gate by assumption.
  cbn zeta. unfold bind at 1.
  rewrite (pickVectorWidth_forced env L _ _ f ir Hf).
  destruct (prepareAndVectorize_trace env L f (getTripAlignment L) ir)
    as (rest & Ht & Hpick & _).
  unfold trace in Ht.
  destruct (prepareAndVectorize env L f (getTripAlignment L) ir)
    as [[[r |] ir'] t]; cbn in Ht |- *; subst t.
  - exists (rest ++ [ReturnVectorizeLoop (loopId L) r]). split; [reflexivity |].
    intros l i [Hin | [Hin | []]] % in_app_or; [now apply (Hpick l i) | discriminate].
  - exists rest. split; [reflexivity | assumption].
Qed.

(** Past the gate with no forced width: the cost model is called, and the
    remainder transform only if the refined width is above 1. *)
Lemma vectorizeLoop_trace_cost_model (L : Loop) (ir : IR) :
  passesGate env ir L = true ->
  forcedWidth env (GetLoopAnnotation ir L) = None ->
  let depDist :=
    safeGet (minDepDist (effectiveAnnotation env ir L)) (ParallelDistance env) in
  let refined := refinedWidth env ir L depDist in
  if refined <=? 1 then
    vectorizeLoop env L ir
    = (Done false, ir,
       [CallVectorizeLoop (loopId L);
        CallPickWidthForRegion (loopId L) (initialWidth depDist);
        ReturnVectorizeLoop (loopId L) false])
  else
    exists rest,
      trace (vectorizeLoop env L ir)
      = CallVectorizeLoop (loopId L)
          :: CallPickWidthForRegion (loopId L) (initialWidth depDist)
          :: CallCreateVectorizableLoop (loopId L)
               (if negb (refined =? to_size_t (to_int depDist))
                then to_int refined else to_int depDist)
               (getTripAlignment L)
          :: rest.
Proof.
  intros Hgate Hf depDist refined.
  rewrite <- forcedWidth_effectiveAnnotation in Hf.
  pose proof (pickVectorWidth_cost_model env L _ depDist ir Hf) as Hpick.
  fold refined in Hpick.
  rewrite vectorizeLoop_unfold, vectorizeLoopBody_past_gate by assumption.
  cbn zeta. fold depDist.
  destruct (refined <=? 1); unfold bind at 1; rewrite Hpick; [reflexivity |].
  set (w := if negb _ then to_int refined else _).
  assert ((if negb (refined =? to_size_t (to_int depDist))
           then Some (to_int refined) else Some (to_int depDist)) = Some w)
    as -> by (subst w; now destruct (negb _)).
  destruct (prepareAndVectorize_trace env L w (getTripAlignment L) ir)
    as (rest & Ht & _).
  unfold trace in Ht.
  destruct (prepareAndVectorize env L w (getTripAlignment L) ir)
    as [[[r |] ir'] t]; cbn in Ht |- *; subst t; eexists; reflexivity.
Qed.

End WidthSelection.

(** ** The dependence gate *)

(** C7: a loop that is not annotated parallel and whose recorded minimum
    dependence distance is at most 1 is rejected: [vectorizeLoop] returns
    false, the IR is the one it started from, and no collaborator (cost
    model, remainder transform, engine) was called. *)
Theorem dependence_gate (env : Collaborators) (L : Loop) (ir : IR) (d : Z) :
  isAnnotatedParallel L = false ->
  minDepDist (GetLoopAnnotation ir L) = Some d ->
  d <= 1 ->
  vectorizeLoop env L ir
  = (Done false, ir,
     [CallVectorizeLoop (loopId L); ReturnVectorizeLoop (loopId L) false]).
Proof.
  intros Hpar Hd Hle. apply vectorizeLoop_rejected_at_gate.
  unfold passesGate, effectiveAnnotation. rewrite Hpar. cbn zeta. rewrite Hd.
  cbn [safeGet]. destruct (Z.leb_spec d 1); [| lia].
  now rewrite !andb_false_r.
Qed.

Lemma dependence_gate_witness :
  vectorizeLoop Examples.plainEnv Examples.dist1Loop Examples.dist1IR
  = (Done false, Examples.dist1IR,
     [CallVectorizeLoop 0; ReturnVectorizeLoop 0 false]).
Proof.
  apply (dependence_gate Examples.plainEnv Examples.dist1Loop Examples.dist1IR 1);
    [reflexivity | reflexivity | lia].
Defined.

(** ** Width selection *)

(** C2, as the code has it: when a width is forced, by [RV_FORCE_WIDTH] or
    else by the explicit width of the annotation, the cost model is not
    called, and the width the pass commits to (for a loop that passes the
    gate) is the forced one: the environment value as [atoi] reads it when
    the variable is set, whatever the annotation says, and the annotation's
    explicit width otherwise. *)
Theorem forced_width_skips_cost_model
        (env : Collaborators) (L : Loop) (ir : IR) (f : Z) :
  forcedWidth env (GetLoopAnnotation ir L) = Some f ->
  ~ costModelInvoked (trace (vectorizeLoop env L ir))
  /\ chosenWidth (trace (vectorizeLoop env L ir))
     = (if passesGate env ir L then Some f else None).
Proof.
  intros Hf. destruct (passesGate env ir L) eqn:Hgate.
  - destruct (vectorizeLoop_trace_forced env L ir f Hgate Hf)
      as (rest & -> & Hpick).
    split; [| reflexivity].
    intros (l & i & [Hin | [Hin | Hin]]); try discriminate.
    now apply (Hpick l i).
  - rewrite vectorizeLoop_rejected_at_gate by assumption.
    split; [| reflexivity].
    intros (l & i & [Hin | [Hin | []]]); discriminate.
Qed.

Lemma forced_width_skips_cost_model_witness :
  ~ costModelInvoked
      (trace (vectorizeLoop Examples.force4Env Examples.width8Loop
                            Examples.width8IR))
  /\ chosenWidth
       (trace (vectorizeLoop Examples.force4Env Examples.width8Loop
                             Examples.width8IR))
     = (if passesGate Examples.force4Env Examples.width8IR Examples.width8Loop
        then Some 4 else None).
Proof.
  apply (forced_width_skips_cost_model
           Examples.force4Env Examples.width8Loop Examples.width8IR 4).
  reflexivity.
Defined.

(** C2, as the specification states it, fails when both sources are set:
    the annotation carries the explicit width 8, [RV_FORCE_WIDTH] is 4, and
    the width the pass commits to is 4, not the annotation's. *)
Lemma annotation_width_overridden_by_environment :
  explicitVectorWidth
    (GetLoopAnnotation Examples.width8IR Examples.width8Loop) = Some 8
  /\ getenv Examples.force4Env "RV_FORCE_WIDTH" = Some "4"
  /\ chosenWidth
       (trace (vectorizeLoop Examples.force4Env Examples.width8Loop
                             Examples.width8IR)) = Some 4.
Proof. repeat split. Qed.

(** C9, as the code has it: the width the pass commits to is at least 1
    provided that the forced width, when there is one, is itself at least
    1, and that the cost model's refined width, when no width is forced,
    fits an [int].  A forced width is taken as it is. *)
Theorem chosen_width_positive
        (env : Collaborators) (L : Loop) (ir : IR) (w : Z) :
  chosenWidth (trace (vectorizeLoop env L ir)) = Some w ->
  (forall f, forcedWidth env (GetLoopAnnotation ir L) = Some f -> 1 <= f) ->
  (forcedWidth env (GetLoopAnnotation ir L) = None ->
   refinedWidth env ir L
     (safeGet (minDepDist (effectiveAnnotation env ir L)) (ParallelDistance env))
   <= int_max) ->
  1 <= w.
Proof.
  intros Hw Hforced Hcost.
  destruct (passesGate env ir L) eqn:Hgate.
  2: { rewrite vectorizeLoop_rejected_at_gate in Hw by assumption.
       discriminate. }
  destruct (forcedWidth env (GetLoopAnnotation ir L)) as [f |] eqn:Hf.
  - destruct (vectorizeLoop_trace_forced env L ir f Hgate Hf) as (rest & Ht & _).
    rewrite Ht in Hw. injection Hw as <-. now apply Hforced.
  - specialize (Hcost eq_refl).
    pose proof (vectorizeLoop_trace_cost_model env L ir Hgate Hf) as Ht.
    cbn zeta in Ht.
    set (depDist := safeGet _ _) in *. set (refined := refinedWidth _ _ _ _) in *.
    destruct (Z.leb_spec refined 1) as [Hle | Hgt].
    + rewrite Ht in Hw. discriminate.
    + destruct Ht as (rest & Ht). rewrite Ht in Hw. injection Hw as <-.
      assert (to_int refined = refined) as Hr
          by (apply to_int_fits; unfold int_min, int_max in *; lia).
      destruct (Z.eqb_spec refined (to_size_t (to_int depDist))) as [Heq | Hne];
        cbn [negb]; [| lia].
      rewrite <- (to_size_t_int_small (to_int depDist)).
      * lia.
      * apply to_int_range.
      * lia.
Qed.

Lemma chosen_width_positive_witness :
  chosenWidth
    (trace (vectorizeLoop Examples.force4Env Examples.width8Loop
                          Examples.width8IR)) = Some 4
  /\ forcedWidth Examples.force4Env
       (GetLoopAnnotation Examples.width8IR Examples.width8Loop) = Some 4
  /\ 1 <= 4.
Proof.
  split; [reflexivity |]. split; [reflexivity |].
  apply (chosen_width_positive
           Examples.force4Env Examples.width8Loop Examples.width8IR 4).
  - reflexivity.
  - intros f Hf. vm_compute in Hf. injection Hf as <-. lia.
  - intros Hf. vm_compute in Hf. discriminate Hf.
Defined.

(** C9, as the specification states it, fails for a forced width below 1:
    with [RV_FORCE_WIDTH=0] the pass commits to the width 0 and goes
    through with it. *)
Lemma forced_width_zero_is_chosen :
  getenv Examples.force0Env "RV_FORCE_WIDTH" = Some "0"
  /\ chosenWidth
       (trace (vectorizeLoop Examples.force0Env Examples.parallelLoop
                             Examples.emptyIR)) = Some 0
  /\ In (CallVectorize 100 0)
        (trace (vectorizeLoop Examples.force0Env Examples.parallelLoop
                              Examples.emptyIR)).
Proof. repeat split. vm_compute. repeat first [left; reflexivity | right]. Qed.

(** ** The kernel gate *)

Lemma IsHipSYCLKernel_carries (F : Function) :
  IsHipSYCLKernel F = true <-> carriesKernelAnnotation F.
Proof.
  unfold IsHipSYCLKernel, carriesKernelAnnotation. rewrite existsb_exists.
  split.
  - intros (I & HI & Hentry).
    destruct (String.eqb_spec (getName I) "llvm.global.annotations")
      as [Hname |]; [| discriminate].
    apply existsb_exists in Hentry as (CS & HCS & Hmatch).
    apply andb_prop in Hmatch as [Htext Hfun].
    apply String.eqb_eq in Htext.
    unfold isFunction in Hfun.
    destruct (AnnotFunc CS) as [id |] eqn:Hid; [| discriminate].
    apply Nat.eqb_eq in Hfun as ->.
    exists I, CS. repeat split; assumption.
  - intros (I & CS & HI & Hname & HCS & Htext & Hfun).
    exists I. split; [assumption |].
    rewrite Hname, String.eqb_refl.
    apply existsb_exists. exists CS. split; [assumption |].
    rewrite Htext, Hfun, String.eqb_refl. cbn. apply Nat.eqb_refl.
Qed.

(** C3: on a function that no entry of [llvm.global.annotations] names
    with the text [hipsycl_nd_kernel], [run] returns false, leaves the IR
    as it is and calls [vectorizeLoop] on no loop. *)
Theorem run_only_on_kernels (env : Collaborators) (F : Function) (ir : IR) :
  ~ carriesKernelAnnotation F ->
  run env F ir = (Done false, ir, []).
Proof.
  intros Hplain. unfold run.
  destruct (isSet (getenv env "RV_DISABLE")); [reflexivity |].
  destruct (IsHipSYCLKernel F) eqn:Hkernel; [| reflexivity].
  now apply IsHipSYCLKernel_carries in Hkernel.
Qed.

Lemma run_only_on_kernels_witness :
  run Examples.plainEnv Examples.plainFunction Examples.emptyIR
  = (Done false, Examples.emptyIR, []).
Proof.
  apply (run_only_on_kernels Examples.plainEnv Examples.plainFunction).
  intros Hcarries. apply IsHipSYCLKernel_carries in Hcarries.
  vm_compute in Hcarries. discriminate Hcarries.
Defined.

(** ** Case analysis of a call of [vectorizeLoop] *)

Ltac through_prepare Hcase :=
  unfold throughPrepare in Hcase;
  match type of Hcase with
  | context [prepareAndVectorize ?e ?L ?w ?a ?ir] =>
      destruct (prepareAndVectorize e L w a ir) as [[[? |] ?] ?]; exact Hcase
  end.

Lemma vectorizeLoop_cases (env : Collaborators) (L : Loop) (ir : IR) :
  VectorizeLoopCase env L ir (vectorizeLoop env L ir).
Proof.
  destruct (passesGate env ir L) eqn:Hgate.
  2: { rewrite vectorizeLoop_rejected_at_gate by assumption. constructor. }
  rewrite vectorizeLoop_unfold, vectorizeLoopBody_past_gate by assumption.
  cbn zeta. unfold bind at 1.
  set (depDist := safeGet _ _).
  destruct (forcedWidth env (effectiveAnnotation env ir L)) as [f |] eqn:Hf.
  - rewrite (pickVectorWidth_forced env L _ _ f ir Hf).
    pose proof (WidthForced env L ir f) as Hcase. through_prepare Hcase.
  - rewrite (pickVectorWidth_cost_model env L _ _ ir Hf).
    destruct (_ <=? 1); [apply NotBeneficial |].
    destruct (negb _).
    + pose proof (WidthRefined env L ir (initialWidth depDist)
                    (to_int (refinedWidth env ir L depDist))) as Hcase.
      through_prepare Hcase.
    + pose proof (WidthRefined env L ir (initialWidth depDist) (to_int depDist))
        as Hcase.
      through_prepare Hcase.
Qed.

Lemma throughPrepare_outcome env L ir t0 w :
  outcome (throughPrepare env L ir t0 w)
  = outcome (prepareAndVectorize env L w (getTripAlignment L) ir).
Proof.
  unfold throughPrepare.
  now destruct (prepareAndVectorize _ _ _ _ _) as [[[r |] ir'] t].
Qed.

Lemma throughPrepare_finalIR env L ir t0 w :
  finalIR (throughPrepare env L ir t0 w)
  = finalIR (prepareAndVectorize env L w (getTripAlignment L) ir).
Proof.
  unfold throughPrepare.
  now destruct (prepareAndVectorize _ _ _ _ _) as [[[r |] ir'] t].
Qed.

Lemma throughPrepare_trace env L ir t0 w (e : Event) :
  In e (trace (throughPrepare env L ir t0 w)) ->
  e = CallVectorizeLoop (loopId L)
  \/ In e t0
  \/ In e (trace (prepareAndVectorize env L w (getTripAlignment L) ir))
  \/ exists r, e = ReturnVectorizeLoop (loopId L) r.
Proof.
  unfold throughPrepare.
  destruct (prepareAndVectorize _ _ _ _ _) as [[[r |] ir'] t]; cbn.
  - intros [<- | Hin]; [now left |].
    apply in_app_or in Hin as [Hin | Hin]; [tauto |].
    apply in_app_or in Hin as [Hin | [<- | []]]; [tauto |].
    right. right. right. now exists r.
  - intros [<- | Hin]; [now left |].
    apply in_app_or in Hin as [Hin | Hin]; tauto.
Qed.

(** ** Reduction legality *)




Section Classification.

Context (env : Collaborators).


(** The two annotation writes leave users and blocks as they are. *)
Lemma classifyHeaderPhis_metadata (ir : IR) (md : gmap nat LoopMD)
      (reda : ReductionAnalysis) (P : Loop) (w : Z)
      (header : list Instruction) (vecInfo : VectorizationInfo) :
  classifyHeaderPhis env (withLoopMetadata ir md) reda P w header vecInfo
  = classifyHeaderPhis env ir reda P w header vecInfo.
Proof.
  revert vecInfo. induction header as [| inst rest IH]; [reflexivity |].
  intros vecInfo. cbn [classifyHeaderPhis].
  destruct (isPHINode inst); cbn [negb]; [| apply IH].
  destruct (getStrideInfo reda inst).
  { destruct (isDefined _); apply IH. }
  destruct (getReductionInfo reda inst) as [r |]; [| reflexivity].
  change (IsSupportedReduction (withLoopMetadata ir md) P r)
    with (IsSupportedReduction ir P r).
  destruct (IsSupportedReduction ir P r); cbn [negb]; [| reflexivity].
  destruct (kind r); try reflexivity.
  destruct (isDefined _); apply IH.
Qed.

(** When the transform gives no loop, nothing more is called. *)
Lemma prepareAndVectorize_not_prepared (L : Loop) (w a : Z) (ir : IR) :
  preparedLoop (createVectorizableLoop env ir (analyze env ir L) L w a) = None ->
  prepareAndVectorize env L w a ir
  = (Done false,
     irAfter (createVectorizableLoop env ir (analyze env ir L) L w a),
     [CallCreateVectorizableLoop (loopId L) w a]).
Proof.
  intros Hnone. unfold prepareAndVectorize, bind, getIR, emit, modifyIR, ret.
  cbn. now rewrite Hnone.
Qed.

(** When the header of the prepared loop is rejected, the loop is already
    marked and the engine is not called. *)
Lemma prepareAndVectorize_header_rejected (L P : Loop) (w a : Z) (ir : IR) :
  let remTrans := createVectorizableLoop env ir (analyze env ir L) L w a in
  preparedLoop remTrans = Some P ->
  classifyHeaderPhis env (irAfter remTrans) (redaAfter remTrans) P w
    (instructionsOf (irAfter remTrans) (getHeader P)) [] = None ->
  prepareAndVectorize env L w a ir
  = (Done false,
     ClearLoopVectorizeAnnotations P
       (SetLLVMLoopAnnotations L alreadyVectorizedMD (irAfter remTrans)),
     [CallCreateVectorizableLoop (loopId L) w a;
      CallSetLLVMLoopAnnotations (loopId L);
      CallClearLoopVectorizeAnnotations (loopId P)]).
Proof.
  intros remTrans HP Hrej.
  unfold prepareAndVectorize, bind, getIR, emit, modifyIR, ret.
  cbn. fold remTrans. rewrite HP. cbn.
  unfold ClearLoopVectorizeAnnotations at 1 3.
  rewrite classifyHeaderPhis_metadata.
  unfold SetLLVMLoopAnnotations at 1 3.
  rewrite classifyHeaderPhis_metadata.
  change (instructionsOf (ClearLoopVectorizeAnnotations P _) (getHeader P))
    with (instructionsOf (irAfter remTrans) (getHeader P)).
  now rewrite Hrej.
Qed.

(** The rejection of a header phi comes after the loop was marked: its
    persisted annotation says it is already vectorized. *)
Lemma header_rejection_marks_loop (L P : Loop) (w a : Z) (ir : IR) :
  let remTrans := createVectorizableLoop env ir (analyze env ir L) L w a in
  preparedLoop remTrans = Some P ->
  classifyHeaderPhis env (irAfter remTrans) (redaAfter remTrans) P w
    (instructionsOf (irAfter remTrans) (getHeader P)) [] = None ->
  outcome (prepareAndVectorize env L w a ir) = Done false
  /\ alreadyVectorized
       (GetLoopAnnotation (finalIR (prepareAndVectorize env L w a ir)) L)
     = Some true.
Proof.
  intros remTrans HP Hrej.
  rewrite (prepareAndVectorize_header_rejected L P w a ir HP Hrej).
  split; [reflexivity |].
  unfold finalIR, GetLoopAnnotation, ClearLoopVectorizeAnnotations,
    SetLLVMLoopAnnotations. cbn.
  rewrite lookup_alter. case_decide as Hid; [rewrite Hid |];
    rewrite lookup_insert_eq; reflexivity.
Qed.

(** Every way [prepareAndVectorize] can go, with the IR it leaves and the
    calls it makes. *)
Lemma prepareAndVectorize_normal_form (L : Loop) (w a : Z) (ir : IR) :
  let remTrans := createVectorizableLoop env ir (analyze env ir L) L w a in
  prepareAndVectorize env L w a ir =
  match preparedLoop remTrans with
  | None =>
      (Done false, irAfter remTrans, [CallCreateVectorizableLoop (loopId L) w a])
  | Some P =>
      let marked :=
        ClearLoopVectorizeAnnotations P
          (SetLLVMLoopAnnotations L alreadyVectorizedMD (irAfter remTrans)) in
      let calls :=
        [CallCreateVectorizableLoop (loopId L) w a;
         CallSetLLVMLoopAnnotations (loopId L);
         CallClearLoopVectorizeAnnotations (loopId P)] in
      match classifyHeaderPhis env (irAfter remTrans) (redaAfter remTrans) P w
              (instructionsOf (irAfter remTrans) (getHeader P)) [] with
      | None => (Done false, marked, calls)
      | Some vecInfo =>
          match vectorize env marked P w
                  (fold_left (fun vi val => setPinnedShape val ShapeUniform vi)
                             (uniOverrides remTrans) vecInfo) with
          | None => (Fatal, marked, calls ++ [CallVectorize (loopId P) w])
          | Some vectorized =>
              (Done true, vectorized, calls ++ [CallVectorize (loopId P) w])
          end
      end
  end.
Proof.
  intros remTrans.
  destruct (preparedLoop remTrans) as [P |] eqn:HP;
    [| now apply prepareAndVectorize_not_prepared].
  cbn zeta.
  destruct (classifyHeaderPhis _ _ _ _ _ _ _) as [vecInfo |] eqn:Hclass;
    [| now apply prepareAndVectorize_header_rejected].
  unfold prepareAndVectorize, bind, getIR, emit, modifyIR, ret, fatal.
  cbn. fold remTrans. rewrite HP. cbn.
  unfold ClearLoopVectorizeAnnotations at 1 3.
  rewrite classifyHeaderPhis_metadata.
  unfold SetLLVMLoopAnnotations at 1 3.
  rewrite classifyHeaderPhis_metadata.
  change (instructionsOf (ClearLoopVectorizeAnnotations P _) (getHeader P))
    with (instructionsOf (irAfter remTrans) (getHeader P)).
  rewrite Hclass.
  change (withLoopMetadata
            (withLoopMetadata (irAfter remTrans) _) _)
    with (ClearLoopVectorizeAnnotations P
            (SetLLVMLoopAnnotations L alreadyVectorizedMD (irAfter remTrans))).
  now destruct (vectorize _ _ _ _ _).
Qed.

End Classification.

Section Rejections.

Context (env : Collaborators).


(** A call that never reaches the remainder transform returns false and
    leaves the IR as it was. *)
Lemma rejection_before_transform (L : Loop) (ir : IR) :
  chosenWidth (trace (vectorizeLoop env L ir)) = None ->
  outcome (vectorizeLoop env L ir) = Done false
  /\ finalIR (vectorizeLoop env L ir) = ir.
Proof.
  pose proof (vectorizeLoop_cases env L ir) as Hcase.
  remember (vectorizeLoop env L ir) as r eqn:Hr. clear Hr.
  destruct Hcase as [| i | w | i w]; intros Hnone; try (split; reflexivity);
    exfalso; unfold throughPrepare in Hnone;
    destruct (prepareAndVectorize_trace env L w (getTripAlignment L) ir)
      as (rest & Ht & _); unfold trace in Ht;
    destruct (prepareAndVectorize env L w (getTripAlignment L) ir)
      as [[[r |] ir'] t]; cbn in Ht, Hnone; subst t; discriminate.
Qed.

End Rejections.




(** ** Loops without a single branch exit *)

(** Past the gate, [vectorizeLoop] either stops at the cost model or goes
    on to the remainder transform with the selected width. *)
Lemma vectorizeLoop_past_gate (env : Collaborators) (L : Loop) (ir : IR) :
  passesGate env ir L = true ->
  match selectedWidth env ir L with
  | None =>
      exists i,
        vectorizeLoop env L ir
        = (Done false, ir,
           [CallVectorizeLoop (loopId L); CallPickWidthForRegion (loopId L) i;
            ReturnVectorizeLoop (loopId L) false])
  | Some w =>
      exists t0,
        (forall e, In e t0 -> exists i, e = CallPickWidthForRegion (loopId L) i)
        /\ vectorizeLoop env L ir = throughPrepare env L ir t0 w
  end.
Proof.
  intros Hgate. unfold selectedWidth. cbn zeta.
  set (depDist := safeGet _ _).
  destruct (forcedWidth env (effectiveAnnotation env ir L)) as [f |] eqn:Hf.
  - exists []. split; [intros e [] |].
    rewrite vectorizeLoop_unfold, vectorizeLoopBody_past_gate by assumption.
    cbn zeta. unfold bind at 1.
    rewrite (pickVectorWidth_forced env L _ _ f ir Hf). unfold throughPrepare.
    now destruct (prepareAndVectorize _ _ _ _ _) as [[[r |] ir'] t].
  - pose proof (pickVectorWidth_cost_model env L _ depDist ir Hf) as Hpick.
    destruct (_ <=? 1).
    + eexists.
      rewrite vectorizeLoop_unfold, vectorizeLoopBody_past_gate by assumption.
      cbn zeta. unfold bind at 1. fold depDist. rewrite Hpick. reflexivity.
    + destruct (negb _); eexists [_];
        (split; [intros e [<- | []]; now eexists |]);
        rewrite vectorizeLoop_unfold, vectorizeLoopBody_past_gate by assumption;
        cbn zeta; unfold bind at 1; fold depDist; rewrite Hpick;
        unfold throughPrepare;
        now destruct (prepareAndVectorize _ _ _ _ _) as [[[r |] ir'] t].
Qed.

(** The remainder transform is called with the width and the trip
    alignment of the loop. *)
Lemma throughPrepare_calls_transform env L ir t0 w :
  In (CallCreateVectorizableLoop (loopId L) w (getTripAlignment L))
     (trace (throughPrepare env L ir t0 w)).
Proof.
  unfold throughPrepare.
  destruct (prepareAndVectorize_trace env L w (getTripAlignment L) ir)
    as (rest & Ht & _). unfold trace in Ht.
  destruct (prepareAndVectorize env L w (getTripAlignment L) ir)
    as [[[r |] ir'] t]; cbn in Ht |- *; subst t;
    right; apply in_or_app; right; now left.
Qed.

(** C6, as the code has it: for a loop that lacks a single exiting block
    ended by a branch, [canVectorizeLoop] answers false, but
    [vectorizeLoop] does not ask it and tests no exit shape.  When such a
    loop passes the three tests on its annotation, a width is selected for
    it as for any loop.  If the cost model answers at most 1, the pass
    returns false with the IR as it was and the remainder transform is not
    called.  Otherwise the remainder transform is called on the loop with
    the selected width and the trip alignment of the loop: when it gives
    no prepared loop, the pass returns false, the engine is not called and
    no annotation is written; when it gives a prepared loop whose header
    phis are all classified and the engine succeeds, the pass returns true
    and leaves the IR of the engine: the loop is vectorized. *)
Theorem exit_shape_left_to_remainder_transform
        (env : Collaborators) (L : Loop) (ir : IR) :
  lacksSingleBranchExit L = true ->
  canVectorizeLoop L = false
  /\ (passesGate env ir L = true ->
      match selectedWidth env ir L with
      | None =>
          outcome (vectorizeLoop env L ir) = Done false
          /\ finalIR (vectorizeLoop env L ir) = ir
          /\ costModelInvoked (trace (vectorizeLoop env L ir))
          /\ forall l w a,
               ~ In (CallCreateVectorizableLoop l w a)
                    (trace (vectorizeLoop env L ir))
      | Some VectorWidth =>
          let remTrans :=
            createVectorizableLoop env ir (analyze env ir L) L VectorWidth
                                   (getTripAlignment L) in
          In (CallCreateVectorizableLoop (loopId L) VectorWidth
                                         (getTripAlignment L))
             (trace (vectorizeLoop env L ir))
          /\ match preparedLoop remTrans with
             | None =>
                 outcome (vectorizeLoop env L ir) = Done false
                 /\ (forall l v,
                        ~ In (CallVectorize l v)
                             (trace (vectorizeLoop env L ir)))
                 /\ (forall l,
                        ~ In (CallSetLLVMLoopAnnotations l)
                             (trace (vectorizeLoop env L ir)))
             | Some PreparedLoop =>
                 forall vecInfo vectorized,
                   classifyHeaderPhis env (irAfter remTrans)
                     (redaAfter remTrans) PreparedLoop VectorWidth
                     (instructionsOf (irAfter remTrans)
                                     (getHeader PreparedLoop)) []
                   = Some vecInfo ->
                   vectorize env
                     (ClearLoopVectorizeAnnotations PreparedLoop
                        (SetLLVMLoopAnnotations L alreadyVectorizedMD
                                                (irAfter remTrans)))
                     PreparedLoop VectorWidth
                     (fold_left
                        (fun vi val => setPinnedShape val ShapeUniform vi)
                        (uniOverrides remTrans) vecInfo)
                   = Some vectorized ->
                   outcome (vectorizeLoop env L ir) = Done true
                   /\ finalIR (vectorizeLoop env L ir) = vectorized
                   /\ In (CallVectorize (loopId PreparedLoop) VectorWidth)
                         (trace (vectorizeLoop env L ir))
             end
      end).
Proof.
  intros Hexit. split.
  - unfold canVectorizeLoop, lacksSingleBranchExit in *.
    destruct (isAnnotatedParallel L); [| reflexivity]. cbn [negb].
    destruct (getExitingBlock L) as [[block term] |]; [| reflexivity].
    now rewrite Hexit.
  - intros Hgate. pose proof (vectorizeLoop_past_gate env L ir Hgate) as Hpast.
    destruct (selectedWidth env ir L) as [w |].
    + destruct Hpast as (t0 & Ht0 & ->). cbn zeta.
      split; [apply throughPrepare_calls_transform |].
      destruct (preparedLoop _) as [P |] eqn:HP.
      * intros vecInfo vectorized Hclass Hengine.
        unfold throughPrepare.
        rewrite prepareAndVectorize_normal_form. cbn zeta.
        rewrite HP, Hclass, Hengine. cbn.
        split; [reflexivity |]. split; [reflexivity |].
        right. apply in_or_app. right.
        repeat first [left; reflexivity | right].
      * rewrite throughPrepare_outcome.
        rewrite (prepareAndVectorize_not_prepared env L w _ ir HP).
        split; [reflexivity |].
        split; intros; intros Hin;
          apply throughPrepare_trace in Hin as [H | [H | [H | [r H]]]];
          try discriminate;
          try (apply Ht0 in H as [i H]; discriminate);
          rewrite (prepareAndVectorize_not_prepared env L w _ ir HP) in H;
          destruct H as [H | []]; discriminate.
    + destruct Hpast as [i ->]. cbn.
      split; [reflexivity |]. split; [reflexivity |].
      split; [exists (loopId L), i; right; now left |].
      intros l w a [H | [H | [H | []]]]; discriminate.
Qed.

Lemma exit_shape_left_to_remainder_transform_witness :
  canVectorizeLoop (Examples.twoExitLoop 0) = false
  /\ In (CallCreateVectorizableLoop 0 8 1)
        (trace (vectorizeLoop Examples.plainEnv (Examples.twoExitLoop 0)
                              Examples.emptyIR))
  /\ outcome (vectorizeLoop Examples.plainEnv (Examples.twoExitLoop 0)
                            Examples.emptyIR) = Done false.
Proof.
  destruct (exit_shape_left_to_remainder_transform
              Examples.plainEnv (Examples.twoExitLoop 0) Examples.emptyIR
              eq_refl) as [Hcan Hpast].
  specialize (Hpast eq_refl).
  change (selectedWidth Examples.plainEnv Examples.emptyIR
                        (Examples.twoExitLoop 0))
    with (Some 8) in Hpast.
  cbv beta iota zeta in Hpast. destruct Hpast as [Hcalled Hrejected].
  change (preparedLoop _) with (@None Loop) in Hrejected.
  cbv beta iota in Hrejected.
  split; [exact Hcan |]. split; [exact Hcalled | apply Hrejected].
Defined.

(** C6, as the specification states it, fails: a loop with two exiting
    blocks passes the gate of [vectorizeLoop] and is handed to the
    remainder transform; with a transform that prepares it, it is
    vectorized. *)
Lemma loop_without_single_exit_reaches_transform :
  lacksSingleBranchExit (Examples.twoExitLoop 0) = true
  /\ In (CallCreateVectorizableLoop 0 8 1)
        (trace (vectorizeLoop Examples.plainEnv (Examples.twoExitLoop 0)
                              Examples.emptyIR))
  /\ outcome
       (vectorizeLoop
          (Examples.collaborators None Examples.noInfo Examples.acceptingTransform)
          (Examples.twoExitLoop 0) Examples.emptyIR) = Done true.
Proof.
  repeat split. vm_compute. repeat first [left; reflexivity | right].
Qed.

(** ** Rejections after the remainder transform *)

(** C4: the reference run for the rejection of a header phi.  The loop
    passes the gate, the cost model answers 8, the remainder transform
    gives a prepared loop, and the header phi has neither a stride pattern
    nor a reduction descriptor.  [vectorizeLoop] returns false, yet the
    persisted annotation of the loop now says it is already vectorized, so
    the IR is not the one the call started from, and a second call stops
    at the gate. *)
Theorem rejected_phi_leaves_loop_marked :
  outcome (vectorizeLoop Examples.plainEnv Examples.parallelLoop Examples.strayIR)
  = Done false
  /\ trace (vectorizeLoop Examples.plainEnv Examples.parallelLoop Examples.strayIR)
     = [CallVectorizeLoop 0; CallPickWidthForRegion 0 size_max;
        CallCreateVectorizableLoop 0 8 64; CallSetLLVMLoopAnnotations 0;
        CallClearLoopVectorizeAnnotations 100; ReturnVectorizeLoop 0 false]
  /\ alreadyVectorized (GetLoopAnnotation Examples.strayIR Examples.parallelLoop)
     = None
  /\ alreadyVectorized
       (GetLoopAnnotation
          (finalIR (vectorizeLoop Examples.plainEnv Examples.parallelLoop
                                  Examples.strayIR))
          Examples.parallelLoop) = Some true
  /\ finalIR (vectorizeLoop Examples.plainEnv Examples.parallelLoop
                            Examples.strayIR) <> Examples.strayIR
  /\ passesGate Examples.plainEnv Examples.strayIR Examples.parallelLoop = true
  /\ passesGate Examples.plainEnv
       (finalIR (vectorizeLoop Examples.plainEnv Examples.parallelLoop
                               Examples.strayIR))
       Examples.parallelLoop = false.
Proof.
  repeat split. intros Heq.
  apply (f_equal (fun ir => alreadyVectorized
                              (GetLoopAnnotation ir Examples.parallelLoop))) in Heq.
  vm_compute in Heq. discriminate Heq.
Qed.

(** ** The traversal of the loop nest *)

(** Induction over a loop nest, with the property at hand for every
    immediate sub-loop. *)
Lemma LoopNest_nested_ind (P : LoopNest -> Prop) :
  (forall L subs, Forall P subs -> P (Nest L subs)) ->
  forall N, P N.
Proof.
  intros Hstep.
  refine (fix go (N : LoopNest) : P N :=
            match N with
            | Nest L subs => Hstep L subs _
            end).
  induction subs as [| S rest IH]; constructor; [apply go | exact IH].
Qed.

Lemma visitedLoops_app (t1 t2 : list Event) :
  visitedLoops (t1 ++ t2) = visitedLoops t1 ++ visitedLoops t2.
Proof.
  induction t1 as [| e t1 IH]; [reflexivity |].
  destruct e; cbn; now rewrite IH.
Qed.

Lemma visitedLoops_inner (t : list Event) :
  (forall e, In e t -> isLoopBoundary e = false) -> visitedLoops t = [].
Proof.
  induction t as [| e t IH]; [reflexivity |]. intros Hinner.
  assert (isLoopBoundary e = false) as He by (apply Hinner; now left).
  destruct e; try discriminate; cbn; apply IH; intros; apply Hinner; now right.
Qed.

Lemma visited_visitedLoops (t : list Event) (l : nat) :
  visited t l <-> In l (visitedLoops t).
Proof.
  unfold visited. induction t as [| e t IH]; [reflexivity |].
  destruct e as [l0 | | | | | |]; cbn; rewrite <- IH.
  1: { split; (intros [H | H]; [left | right]); congruence. }
  all: split; [intros [H | H]; [discriminate | assumption] | now right].
Qed.

Section Traversal.

Context (env : Collaborators).

(** The trace of one call: the call event, events of the collaborators,
    and the return event unless the engine failed. *)
Lemma vectorizeLoop_shape (L : Loop) (ir : IR) :
  exists inner,
    (forall e, In e inner -> isLoopBoundary e = false)
    /\ trace (vectorizeLoop env L ir)
       = CallVectorizeLoop (loopId L) :: inner
           ++ match outcome (vectorizeLoop env L ir) with
              | Done r => [ReturnVectorizeLoop (loopId L) r]
              | Fatal => []
              end.
Proof.
  pose proof (vectorizeLoop_cases env L ir) as Hcase.
  remember (vectorizeLoop env L ir) as r eqn:Hr. clear Hr.
  destruct Hcase as [| i | w | i w].
  - exists []. split; [intros e [] | reflexivity].
  - exists [CallPickWidthForRegion (loopId L) i].
    split; [intros e [<- | []]; reflexivity | reflexivity].
  - destruct (prepareAndVectorize_trace env L w (getTripAlignment L) ir)
      as (rest & Ht & Hpick & Hcall & Hret).
    unfold throughPrepare, trace in *.
    destruct (prepareAndVectorize env L w (getTripAlignment L) ir)
      as [[[r |] ir'] t]; cbn in Ht |- *; subst t;
      exists (CallCreateVectorizableLoop (loopId L) w (getTripAlignment L) :: rest);
      (split; [| now rewrite ?app_nil_r]);
      intros e [<- | Hin]; try reflexivity;
      destruct e; try reflexivity; exfalso;
      first [eapply Hcall; eassumption | eapply Hret; eassumption].
  - destruct (prepareAndVectorize_trace env L w (getTripAlignment L) ir)
      as (rest & Ht & Hpick & Hcall & Hret).
    unfold throughPrepare, trace in *.
    destruct (prepareAndVectorize env L w (getTripAlignment L) ir)
      as [[[r |] ir'] t]; cbn in Ht |- *; subst t;
      exists (CallPickWidthForRegion (loopId L) i
                :: CallCreateVectorizableLoop (loopId L) w (getTripAlignment L)
                :: rest);
      (split; [| now rewrite ?app_nil_r]);
      intros e [<- | [<- | Hin]]; try reflexivity;
      destruct e; try reflexivity; exfalso;
      first [eapply Hcall; eassumption | eapply Hret; eassumption].
Qed.

Lemma vectorizeLoop_visits_itself (L : Loop) (ir : IR) :
  visitedLoops (trace (vectorizeLoop env L ir)) = [loopId L].
Proof.
  destruct (vectorizeLoop_shape L ir) as (inner & Hinner & ->).
  cbn. rewrite visitedLoops_app, (visitedLoops_inner inner Hinner).
  now destruct (outcome _) as [r |].
Qed.

(** A call shows a loop as vectorized exactly when it returns true. *)
Lemma vectorizeLoop_vectorized (L : Loop) (ir : IR) :
  (exists l, vectorized (trace (vectorizeLoop env L ir)) l)
  <-> outcome (vectorizeLoop env L ir) = Done true.
Proof.
  destruct (vectorizeLoop_shape L ir) as (inner & Hinner & ->).
  unfold vectorized. split.
  - intros (l & [Hin | Hin]); [discriminate |].
    apply in_app_or in Hin as [Hin | Hin].
    + apply Hinner in Hin. discriminate.
    + destruct (outcome _) as [r |]; [| destruct Hin].
      destruct Hin as [[= _ ->] | []]. reflexivity.
  - intros ->. exists (loopId L). right. apply in_or_app. right. now left.
Qed.

End Traversal.

Lemma vectorized_app (t1 t2 : list Event) :
  (exists l, vectorized (t1 ++ t2) l)
  <-> (exists l, vectorized t1 l) \/ (exists l, vectorized t2 l).
Proof.
  unfold vectorized. split.
  - intros (l & Hin). apply in_app_or in Hin as [Hin | Hin]; eauto.
  - intros [(l & Hin) | (l & Hin)]; exists l; apply in_or_app; tauto.
Qed.

Section NestTraversal.

Context (env : Collaborators).

Lemma vectorizeLoopOrSubLoops_unfold (L : Loop) (subs : list LoopNest) (ir : IR) :
  vectorizeLoopOrSubLoops env (Nest L subs) ir =
  match vectorizeLoop env L ir with
  | (Done true, ir1, t1) => (Done true, ir1, t1)
  | (Done false, ir1, t1) =>
      match forEachLoop (vectorizeLoopOrSubLoops env) subs false ir1 with
      | (o, ir2, t2) => (o, ir2, t1 ++ t2)
      end
  | (Fatal, ir1, t1) => (Fatal, ir1, t1)
  end.
Proof.
  cbn [vectorizeLoopOrSubLoops]. unfold bind at 1.
  destruct (vectorizeLoop env L ir) as [[[[|] |] ir1] t1]; try reflexivity.
  unfold ret. now rewrite app_nil_r.
Qed.

Lemma forEachLoop_cons (visit : LoopNest -> Pass bool) (S : LoopNest)
      (rest : list LoopNest) (Changed : bool) (ir : IR) :
  forEachLoop visit (S :: rest) Changed ir =
  match visit S ir with
  | (Done c, ir1, t1) =>
      match forEachLoop visit rest (Changed || c) ir1 with
      | (o, ir2, t2) => (o, ir2, t1 ++ t2)
      end
  | (Fatal, ir1, t1) => (Fatal, ir1, t1)
  end.
Proof. reflexivity. Qed.


Lemma forEachLoop_sound (loops : list LoopNest) :
  Forall (TraversalSound env) loops ->
  forall Changed ir,
    visitedLoops
      (trace (forEachLoop (vectorizeLoopOrSubLoops env) loops Changed ir))
      `sublist_of` map loopId (flat_map loopsOfNest loops)
    /\ forall b,
        outcome (forEachLoop (vectorizeLoopOrSubLoops env) loops Changed ir)
        = Done b ->
        (b = true
         <-> Changed = true
             \/ exists l,
                 vectorized
                   (trace (forEachLoop (vectorizeLoopOrSubLoops env) loops
                                       Changed ir)) l).
Proof.
  induction 1 as [| S rest HS _ IH]; intros Changed ir.
  - cbn. split; [constructor |]. intros b [= <-]. split; [tauto |].
    intros [H | (l & [])]. exact H.
  - rewrite forEachLoop_cons. destruct (HS ir) as [Hsub Hres].
    cbn [flat_map]. rewrite map_app.
    destruct (vectorizeLoopOrSubLoops env S ir) as [[[c |] ir1] t1];
      cbn in Hsub, Hres.
    + destruct (IH (Changed || c) ir1) as [Hsubs Hrest].
      destruct (forEachLoop _ rest (Changed || c) ir1) as [[o ir2] t2].
      cbn in Hsubs, Hrest |- *. split.
      * rewrite visitedLoops_app. now apply sublist_app.
      * intros b Hb. destruct (Hrest b Hb) as [Hthere Hback].
        destruct (Hres c eq_refl) as [Hc Hcback]. split.
        -- intros Hb1. destruct (Hthere Hb1) as [Hor | Hex].
           ++ apply orb_true_iff in Hor as [-> | ->]; [now left |].
              right. apply vectorized_app. left. now apply Hc.
           ++ right. apply vectorized_app. now right.
        -- intros [-> | Hex]; apply Hback; [now left |].
           apply vectorized_app in Hex as [Hex | Hex]; [| now right].
           left. rewrite (Hcback Hex). apply orb_true_r.
    + cbn. split; [now apply sublist_inserts_r | discriminate].
Qed.


Lemma vectorizeLoopOrSubLoops_sound (N : LoopNest) : TraversalSound env N.
Proof.
  induction N as [L subs IH] using LoopNest_nested_ind. intros ir.
  rewrite vectorizeLoopOrSubLoops_unfold.
  pose proof (vectorizeLoop_visits_itself env L ir) as Hself.
  pose proof (vectorizeLoop_vectorized env L ir) as Hvec.
  cbn [loopsOfNest map].
  destruct (vectorizeLoop env L ir) as [[[[|] |] ir1] t1]; cbn in Hself, Hvec |- *.
  - split.
    + rewrite Hself. apply sublist_skip, sublist_nil_l.
    + intros b [= <-]. rewrite Hvec. tauto.
  - destruct (forEachLoop_sound subs IH false ir1) as [Hsubs Hrest].
    destruct (forEachLoop _ subs false ir1) as [[o ir2] t2].
    cbn in Hsubs, Hrest |- *. split.
    + rewrite visitedLoops_app, Hself. now apply sublist_skip.
    + intros b Hb. destruct (Hrest b Hb) as [Hthere Hback]. split.
      * intros Hb1. destruct (Hthere Hb1) as [[=] | Hex].
        apply vectorized_app. now right.
      * intros Hex. apply Hback. right.
        apply vectorized_app in Hex as [Hex | Hex]; [| assumption].
        apply Hvec in Hex. discriminate.
  - split; [| discriminate].
    rewrite Hself. apply sublist_skip, sublist_nil_l.
Qed.

End NestTraversal.


(** The traversal of [Examples.outerNest] inside a kernel function: the
    outer loop is rejected at the gate, its first sub-loop is vectorized,
    its second sub-loop is tried all the same, and the pass answers true. *)
Example traversal_of_outer_nest :
  visitedLoops
    (trace (run Examples.plainEnv Examples.kernelFunction Examples.emptyIR))
  = [1%nat; 2%nat; 3%nat]
  /\ outcome (run Examples.plainEnv Examples.kernelFunction Examples.emptyIR)
     = Done true
  /\ vectorized
       (trace (run Examples.plainEnv Examples.kernelFunction Examples.emptyIR))
       2%nat.
Proof.
  repeat split. vm_compute. repeat first [left; reflexivity | right].
Qed.

(** ** The remainder transform as specified *)

Module RemainderFacts.
Import RemainderSpec.
Local Open Scope nat_scope.

Section Loops.

Context {S : Type} (body : nat -> S -> S).

Lemma iterate_add (first m n : nat) (s : S) :
  iterate body first (m + n) s
  = iterate body (first + m) n (iterate body first m s).
Proof.
  revert first s. induction m as [| m IH]; intros first s; cbn.
  - now rewrite Nat.add_0_r.
  - rewrite IH. f_equal. lia.
Qed.

(** [count] vector iterations are [count * W] iterations of the original
    loop, in the original order. *)
Lemma vectorIterations_iterate (W first count : nat) (s : S) :
  vectorIterations body W first count s
  = iterate body (first * W) (count * W) s.
Proof.
  revert first s. induction count as [| count IH]; intros first s; cbn.
  - reflexivity.
  - rewrite IH. unfold vectorIteration. rewrite iterate_add. f_equal. lia.
Qed.

End Loops.

(** C1, against the remainder transform as specified: for a trip count T
    and a width W of at least 1, the main loop runs floor(T/W) vector
    iterations of W original iterations each and the remainder runs
    T mod W iterations, fewer than W; together they cover T iterations,
    W * floor(T/W) + T mod W = T; and the main loop followed by the
    remainder loop leaves the state the original loop leaves. *)
Theorem remainder_split_preserves_loop
        {S : Type} (body : nat -> S -> S) (T W : nat) (s : S) :
  (1 <= W)%nat ->
  (W * mainIterations T W + remainderIterations T W = T)%nat
  /\ (remainderIterations T W < W)%nat
  /\ preparedLoops body T W s = originalLoop body T s.
Proof.
  intros HW. unfold mainIterations, remainderIterations.
  assert (W <> 0)%nat as HW0 by lia.
  pose proof (Nat.div_mod T W HW0) as Hdm.
  split; [lia |]. split; [now apply Nat.mod_upper_bound |].
  unfold preparedLoops, remainderLoop, mainLoop, originalLoop,
    mainIterations, remainderIterations.
  rewrite vectorIterations_iterate.
  transitivity (iterate body 0 (T / W * W + T mod W) s).
  - rewrite iterate_add.
    replace (W * (T / W)) with (0 + T / W * W) by lia. reflexivity.
  - f_equal. lia.
Qed.

Lemma remainder_split_preserves_loop_witness :
  (1 <= 4)%nat
  /\ (4 * mainIterations 10 4 + remainderIterations 10 4 = 10)%nat
  /\ (remainderIterations 10 4 < 4)%nat
  /\ preparedLoops (fun i done => done ++ [i]) 10 4 []
     = originalLoop (fun i done => done ++ [i]) 10 [].
Proof.
  split; [lia |].
  apply (remainder_split_preserves_loop (fun i done => done ++ [i]) 10 4 []).
  lia.
Defined.

(** C1, as the specification states it, fails on the sum of the two
    counts: for T = 10 and W = 4 the main loop runs 2 vector iterations
    and the remainder 2 iterations, and 2 + 2 is not 10. *)
Lemma iteration_counts_do_not_sum_to_trip_count :
  mainIterations 10 4 = 2%nat
  /\ remainderIterations 10 4 = 2%nat
  /\ (mainIterations 10 4 + remainderIterations 10 4)%nat <> 10%nat.
Proof. repeat split. discriminate. Qed.

End RemainderFacts.

(** * Further properties of the code *)

(** ** Trip count *)

(** X1: [getTripCount] gives -1, or a count from 3 up to the largest
    [int], or, when the backedge-taken count is exactly the largest [int],
    the smallest [int] (the sum wraps on return); [getTripAlignment] is 1
    or that count from 3 up, never 0, 2 or negative. *)
Theorem trip_count_and_alignment_range (L : Loop) :
  (getTripCount L = -1
   \/ (3 <= getTripCount L <= int_max
       /\ backedgeTakenCount L = Some (getTripCount L - 1))
   \/ (backedgeTakenCount L = Some int_max /\ getTripCount L = int_min))
  /\ (getTripAlignment L = 1
      \/ (3 <= getTripAlignment L <= int_max
          /\ getTripAlignment L = getTripCount L)).
Proof.
  unfold getTripAlignment, getTripCount.
  destruct (backedgeTakenCount L) as [c |]; [| split; now left].
  destruct (Z.leb_spec c 1) as [Hle | Hgt]; cbn [orb]; [split; now left |].
  destruct (Z.eqb_spec (to_int c) c) as [Heq | Hne]; cbn [negb];
    [| split; now left].
  apply to_int_fixed_iff in Heq.
  destruct (Z_le_gt_dec (c + 1) int_max) as [Hin | Hout].
  - rewrite to_int_fits by (unfold int_min, int_max in *; lia).
    destruct (Z.ltb_spec 0 (c + 1)); [| lia].
    split; right; [left |]; repeat split; try lia. f_equal. lia.
  - assert (c = int_max) as -> by lia.
    split; [right; right; split; reflexivity | now left].
Qed.

(** ** The header of the prepared loop *)

(** X2: the loop over the header succeeds exactly when every phi of the
    header is taken (it has a stride pattern, or a supported reduction
    descriptor of neither kind Top nor kind Bot); instructions that are
    no phis play no part; on success the shapes pinned are those of the
    phis with a defined shape, in header order, after what was pinned
    before. *)
Theorem classifyHeaderPhis_characterised
        (env : Collaborators) (ir : IR) (reda : ReductionAnalysis) (P : Loop)
        (w : Z) (header : list Instruction) (vecInfo : VectorizationInfo) :
  classifyHeaderPhis env ir reda P w header vecInfo
  = if forallb (fun phi => negb (isPHINode phi) || phiAccepted ir reda P phi)
               header
    then Some (vecInfo ++ pinnedPhis env reda w header)
    else None.
Proof.
  revert vecInfo. induction header as [| phi rest IH]; intros vecInfo.
  - cbn. now rewrite app_nil_r.
  - cbn [classifyHeaderPhis forallb]. unfold pinnedPhis in *.
    cbn [List.filter]. unfold phiAccepted.
    destruct (isPHINode phi); cbn [negb orb andb]; [| apply IH].
    destruct (getStrideInfo reda phi) as [pat |] eqn:Hstride.
    { assert (phiShapeOf env reda w phi = strideShape env pat w) as Hshape
          by (unfold phiShapeOf; now rewrite Hstride).
      rewrite Hshape.
      destruct (isDefined _); rewrite IH;
        destruct (forallb _ rest); try reflexivity.
      unfold setPinnedShape. cbn [map andb].
      now rewrite Hshape, <- app_assoc. }
    destruct (getReductionInfo reda phi) as [redInfo |] eqn:Hred;
      [| reflexivity].
    assert (phiShapeOf env reda w phi = reductionShape env redInfo w) as Hshape
        by (unfold phiShapeOf; now rewrite Hstride, Hred).
    rewrite Hshape.
    destruct (IsSupportedReduction ir P redInfo); cbn [negb andb];
      [| reflexivity].
    destruct (kind redInfo); cbn [andb]; try reflexivity.
    destruct (isDefined _); rewrite IH;
      destruct (forallb _ rest); try reflexivity.
    unfold setPinnedShape. cbn [map andb].
    now rewrite Hshape, <- app_assoc.
Qed.

(** ** From the remainder transform to the engine *)

Section PrepareFacts.

Context (env : Collaborators).

(** The loop is marked in the IR the engine is given. *)
Lemma marked_before_engine (L P : Loop) (ir : IR) :
  alreadyVectorized
    (GetLoopAnnotation
       (ClearLoopVectorizeAnnotations P
          (SetLLVMLoopAnnotations L alreadyVectorizedMD ir)) L)
  = Some true.
Proof.
  unfold GetLoopAnnotation, ClearLoopVectorizeAnnotations,
    SetLLVMLoopAnnotations. cbn.
  rewrite lookup_alter. case_decide as Hid; [rewrite Hid |];
    rewrite lookup_insert_eq; reflexivity.
Qed.

(** A loop whose persisted annotation says it is already vectorized does
    not pass the gate. *)
Lemma marked_loop_stops_at_gate (L : Loop) (ir : IR) :
  alreadyVectorized (GetLoopAnnotation ir L) = Some true ->
  vectorizeLoop env L ir
  = (Done false, ir,
     [CallVectorizeLoop (loopId L); ReturnVectorizeLoop (loopId L) false]).
Proof.
  intros Hmarked. apply vectorizeLoop_rejected_at_gate.
  unfold passesGate, effectiveAnnotation.
  destruct (isAnnotatedParallel L); cbn; rewrite Hmarked; cbn;
    now rewrite ?andb_false_r.
Qed.

End PrepareFacts.

Lemma chosenWidth_app_none (t0 t : list Event) :
  chosenWidth t0 = None -> chosenWidth (t0 ++ t) = chosenWidth t.
Proof.
  induction t0 as [| e t0 IH]; [reflexivity |].
  destruct e; cbn; try exact IH. discriminate.
Qed.

Lemma throughPrepare_chosenWidth env L ir t0 w :
  chosenWidth t0 = None ->
  chosenWidth (trace (throughPrepare env L ir t0 w)) = Some w.
Proof.
  intros Hnone. unfold throughPrepare.
  destruct (prepareAndVectorize_trace env L w (getTripAlignment L) ir)
    as (rest & Ht & _). unfold trace in Ht.
  destruct (prepareAndVectorize env L w (getTripAlignment L) ir)
    as [[[r |] ir'] t]; cbn in Ht |- *; subst t;
    now rewrite chosenWidth_app_none.
Qed.

Lemma prepare_engine_called (env : Collaborators) (L : Loop) (w a : Z) (ir : IR)
      (l : nat) (v : Z) :
  In (CallVectorize l v) (trace (prepareAndVectorize env L w a ir)) ->
  let remTrans := createVectorizableLoop env ir (analyze env ir L) L w a in
  v = w
  /\ exists P,
      preparedLoop remTrans = Some P /\ l = loopId P
      /\ forallb (fun phi => negb (isPHINode phi)
                             || phiAccepted (irAfter remTrans)
                                            (redaAfter remTrans) P phi)
                 (instructionsOf (irAfter remTrans) (getHeader P)) = true.
Proof.
  intros Hin remTrans. rewrite prepareAndVectorize_normal_form in Hin.
  fold remTrans in Hin.
  destruct (preparedLoop remTrans) as [P |];
    [| destruct Hin as [H | []]; discriminate].
  cbn zeta in Hin. rewrite classifyHeaderPhis_characterised in Hin.
  destruct (forallb _ _) eqn:Hall.
  - assert (CallVectorize l v = CallVectorize (loopId P) w) as [= -> ->].
    { destruct (vectorize _ _ _ _ _);
        destruct Hin as [H | [H | [H | [H | []]]]]; congruence. }
    split; [reflexivity |]. now exists P.
  - destruct Hin as [H | [H | [H | []]]]; discriminate.
Qed.

(** X3: the engine is only called after the remainder transform returned
    a prepared loop for the chosen width, on that prepared loop, with that
    same width, and only when every phi of the prepared header is
    taken. *)
Theorem engine_called_on_classified_loop
        (env : Collaborators) (L : Loop) (ir : IR) (l : nat) (v : Z) :
  In (CallVectorize l v) (trace (vectorizeLoop env L ir)) ->
  chosenWidth (trace (vectorizeLoop env L ir)) = Some v
  /\ exists P,
      preparedLoop
        (createVectorizableLoop env ir (analyze env ir L) L v
                                (getTripAlignment L)) = Some P
      /\ l = loopId P
      /\ forallb
           (fun phi =>
              negb (isPHINode phi)
              || phiAccepted
                   (irAfter (createVectorizableLoop env ir (analyze env ir L)
                                                    L v (getTripAlignment L)))
                   (redaAfter (createVectorizableLoop env ir (analyze env ir L)
                                                      L v (getTripAlignment L)))
                   P phi)
           (instructionsOf
              (irAfter (createVectorizableLoop env ir (analyze env ir L) L v
                                               (getTripAlignment L)))
              (getHeader P)) = true.
Proof.
  pose proof (vectorizeLoop_cases env L ir) as Hcase.
  remember (vectorizeLoop env L ir) as r eqn:Hr. clear Hr.
  destruct Hcase as [| i | w | i w]; intros Hin.
  - destruct Hin as [H | [H | []]]; discriminate.
  - destruct Hin as [H | [H | [H | []]]]; discriminate.
  - rewrite throughPrepare_chosenWidth by reflexivity.
    apply throughPrepare_trace in Hin as [H | [[] | [H | [r H]]]];
      try discriminate.
    apply prepare_engine_called in H as [-> HP]. now split.
  - rewrite throughPrepare_chosenWidth by reflexivity.
    apply throughPrepare_trace in Hin as [H | [[H | []] | [H | [r H]]]];
      try discriminate.
    apply prepare_engine_called in H as [-> HP]. now split.
Qed.

Lemma engine_called_on_classified_loop_witness :
  chosenWidth
    (trace (vectorizeLoop Examples.sumEnv Examples.parallelLoop Examples.sumIR))
  = Some 8
  /\ exists P,
      preparedLoop
        (createVectorizableLoop Examples.sumEnv Examples.sumIR
           (analyze Examples.sumEnv Examples.sumIR Examples.parallelLoop)
           Examples.parallelLoop 8 (getTripAlignment Examples.parallelLoop))
      = Some P
      /\ 100%nat = loopId P
      /\ forallb
           (fun phi =>
              negb (isPHINode phi)
              || phiAccepted
                   (irAfter
                      (createVectorizableLoop Examples.sumEnv Examples.sumIR
                         (analyze Examples.sumEnv Examples.sumIR
                                  Examples.parallelLoop)
                         Examples.parallelLoop 8
                         (getTripAlignment Examples.parallelLoop)))
                   (redaAfter
                      (createVectorizableLoop Examples.sumEnv Examples.sumIR
                         (analyze Examples.sumEnv Examples.sumIR
                                  Examples.parallelLoop)
                         Examples.parallelLoop 8
                         (getTripAlignment Examples.parallelLoop)))
                   P phi)
           (instructionsOf
              (irAfter
                 (createVectorizableLoop Examples.sumEnv Examples.sumIR
                    (analyze Examples.sumEnv Examples.sumIR
                             Examples.parallelLoop)
                    Examples.parallelLoop 8
                    (getTripAlignment Examples.parallelLoop)))
              (getHeader P)) = true.
Proof.
  apply (engine_called_on_classified_loop
           Examples.sumEnv Examples.parallelLoop Examples.sumIR 100 8).
  vm_compute. repeat first [left; reflexivity | right].
Defined.

(** X4: a call of [vectorizeLoop] that returns true has made exactly these
    calls, in this order: the cost model at most once, then the remainder
    transform, the two annotation writes, and the engine on the prepared
    loop with the width given to the transform. *)
Theorem successful_call_sequence (env : Collaborators) (L : Loop) (ir : IR) :
  outcome (vectorizeLoop env L ir) = Done true ->
  exists t0 w P,
    (t0 = [] \/ exists i, t0 = [CallPickWidthForRegion (loopId L) i])
    /\ trace (vectorizeLoop env L ir)
       = CallVectorizeLoop (loopId L) :: t0
           ++ [CallCreateVectorizableLoop (loopId L) w (getTripAlignment L);
               CallSetLLVMLoopAnnotations (loopId L);
               CallClearLoopVectorizeAnnotations (loopId P);
               CallVectorize (loopId P) w;
               ReturnVectorizeLoop (loopId L) true].
Proof.
  pose proof (vectorizeLoop_cases env L ir) as Hcase.
  remember (vectorizeLoop env L ir) as r eqn:Hr. clear Hr.
  destruct Hcase as [| i | w | i w]; intros Hdone; try discriminate;
    unfold throughPrepare in *;
    rewrite prepareAndVectorize_normal_form in *; cbn zeta in *;
    destruct (preparedLoop _) as [P |]; try discriminate;
    destruct (classifyHeaderPhis _ _ _ _ _ _ _); try discriminate;
    destruct (vectorize _ _ _ _ _); try discriminate.
  - exists [], w, P. split; [now left | reflexivity].
  - exists [CallPickWidthForRegion (loopId L) i], w, P.
    split; [right; now exists i | reflexivity].
Qed.

Lemma successful_call_sequence_witness :
  exists t0 w P,
    (t0 = [] \/ exists i, t0 = [CallPickWidthForRegion 0 i])
    /\ trace (vectorizeLoop Examples.plainEnv Examples.parallelLoop
                            Examples.emptyIR)
       = CallVectorizeLoop 0 :: t0
           ++ [CallCreateVectorizableLoop 0 w
                 (getTripAlignment Examples.parallelLoop);
               CallSetLLVMLoopAnnotations 0;
               CallClearLoopVectorizeAnnotations (loopId P);
               CallVectorize (loopId P) w;
               ReturnVectorizeLoop 0 true].
Proof.
  apply (successful_call_sequence
           Examples.plainEnv Examples.parallelLoop Examples.emptyIR).
  reflexivity.
Defined.

(** ** Width selection without a forced width *)

Lemma to_int_to_size_t (z : Z) :
  int_min <= z <= int_max -> to_int (to_size_t z) = z.
Proof.
  intros Hz. destruct (Z_lt_le_dec z 0) as [Hneg | Hpos].
  - rewrite to_size_t_neg by lia. unfold to_int.
    replace (z + 2 ^ 64 + 2 ^ 31) with (z + 2 ^ 31 + 2 ^ 32 * 2 ^ 32) by lia.
    rewrite Z.mod_add by lia.
    unfold int_min, int_max in *. rewrite Z.mod_small by lia. lia.
  - rewrite to_size_t_small by (unfold int_max, size_max in *; lia).
    now apply to_int_fits.
Qed.

(** X5: when no width is forced, the width handed to the remainder
    transform is the cost model's refined width converted to [int],
    whether or not it differs from the starting width, and the refined
    width is at least 2. *)
Theorem cost_model_width_is_chosen
        (env : Collaborators) (L : Loop) (ir : IR) (w : Z) :
  forcedWidth env (GetLoopAnnotation ir L) = None ->
  chosenWidth (trace (vectorizeLoop env L ir)) = Some w ->
  w = to_int
        (refinedWidth env ir L
           (safeGet (minDepDist (effectiveAnnotation env ir L))
                    (ParallelDistance env)))
  /\ 2 <= refinedWidth env ir L
            (safeGet (minDepDist (effectiveAnnotation env ir L))
                     (ParallelDistance env))
  /\ costModelInvoked (trace (vectorizeLoop env L ir)).
Proof.
  intros Hf Hw.
  destruct (passesGate env ir L) eqn:Hgate.
  2: { rewrite vectorizeLoop_rejected_at_gate in Hw by assumption.
       discriminate. }
  pose proof (vectorizeLoop_trace_cost_model env L ir Hgate Hf) as Ht.
  cbn zeta in Ht.
  set (depDist := safeGet _ _) in *. set (refined := refinedWidth _ _ _ _) in *.
  destruct (Z.leb_spec refined 1) as [Hle | Hgt].
  { rewrite Ht in Hw. discriminate. }
  destruct Ht as (rest & Ht). rewrite Ht in Hw |- *. injection Hw as <-.
  split; [| split; [lia |]].
  - destruct (Z.eqb_spec refined (to_size_t (to_int depDist))) as [-> | Hne];
      cbn [negb]; [| reflexivity].
    symmetry. apply to_int_to_size_t, to_int_range.
  - exists (loopId L), (initialWidth depDist). right. now left.
Qed.

Lemma cost_model_width_is_chosen_witness :
  8 = to_int
        (refinedWidth Examples.plainEnv Examples.emptyIR Examples.parallelLoop
           (safeGet
              (minDepDist
                 (effectiveAnnotation Examples.plainEnv Examples.emptyIR
                                      Examples.parallelLoop))
              (ParallelDistance Examples.plainEnv)))
  /\ 2 <= refinedWidth Examples.plainEnv Examples.emptyIR Examples.parallelLoop
            (safeGet
               (minDepDist
                  (effectiveAnnotation Examples.plainEnv Examples.emptyIR
                                       Examples.parallelLoop))
               (ParallelDistance Examples.plainEnv))
  /\ costModelInvoked
       (trace (vectorizeLoop Examples.plainEnv Examples.parallelLoop
                             Examples.emptyIR)).
Proof.
  apply (cost_model_width_is_chosen
           Examples.plainEnv Examples.parallelLoop Examples.emptyIR 8);
    reflexivity.
Defined.

(** ** The gate *)

(** X6: a loop whose persisted annotation says it is already vectorized
    is rejected at the gate, also when it is annotated parallel:
    [vectorizeLoop] returns false, leaves the IR as it is and calls no
    collaborator. *)
Theorem already_vectorized_blocks_reentry
        (env : Collaborators) (L : Loop) (ir : IR) :
  alreadyVectorized (GetLoopAnnotation ir L) = Some true ->
  vectorizeLoop env L ir
  = (Done false, ir,
     [CallVectorizeLoop (loopId L); ReturnVectorizeLoop (loopId L) false]).
Proof. apply marked_loop_stops_at_gate. Qed.

Lemma already_vectorized_blocks_reentry_witness :
  vectorizeLoop Examples.plainEnv Examples.parallelLoop
    (mkIR {[ 0%nat := mkLoopMD (Some true) None None None ]} ∅ ∅)
  = (Done false,
     mkIR {[ 0%nat := mkLoopMD (Some true) None None None ]} ∅ ∅,
     [CallVectorizeLoop 0; ReturnVectorizeLoop 0 false]).
Proof.
  apply (already_vectorized_blocks_reentry Examples.plainEnv
           Examples.parallelLoop).
  reflexivity.
Defined.

(** X7: a loop annotated parallel that is not marked already vectorized
    passes the gate whatever enable flag and dependence distance its
    metadata records, as long as [ParallelDistance] is above 1: the pass
    goes on to the forced width, or else to the cost model. *)
Theorem parallel_annotation_overrides_metadata
        (env : Collaborators) (L : Loop) (ir : IR) :
  isAnnotatedParallel L = true ->
  safeGet (alreadyVectorized (GetLoopAnnotation ir L)) false = false ->
  1 < ParallelDistance env ->
  match forcedWidth env (GetLoopAnnotation ir L) with
  | Some f => chosenWidth (trace (vectorizeLoop env L ir)) = Some f
  | None => costModelInvoked (trace (vectorizeLoop env L ir))
  end.
Proof.
  intros Hpar Hfresh Hdist.
  assert (passesGate env ir L = true) as Hgate.
  { unfold passesGate, effectiveAnnotation. rewrite Hpar. cbn.
    rewrite Hfresh. cbn. destruct (Z.leb_spec (ParallelDistance env) 1);
      [lia | reflexivity]. }
  destruct (forcedWidth env (GetLoopAnnotation ir L)) as [f |] eqn:Hf.
  - destruct (vectorizeLoop_trace_forced env L ir f Hgate Hf) as (rest & -> & _).
    reflexivity.
  - pose proof (vectorizeLoop_trace_cost_model env L ir Hgate Hf) as Ht.
    cbn zeta in Ht. destruct (_ <=? 1).
    + rewrite Ht. eexists _, _. right. now left.
    + destruct Ht as (rest & ->). eexists _, _. right. now left.
Qed.

Lemma parallel_annotation_overrides_metadata_witness :
  costModelInvoked
    (trace (vectorizeLoop Examples.plainEnv Examples.parallelLoop
              (mkIR {[ 0%nat := mkLoopMD None (Some false) (Some 1) None ]} ∅ ∅))).
Proof.
  exact (parallel_annotation_overrides_metadata Examples.plainEnv
           Examples.parallelLoop
           (mkIR {[ 0%nat := mkLoopMD None (Some false) (Some 1) None ]} ∅ ∅)
           eq_refl eq_refl eq_refl).
Defined.

(** X8: a loop that is not annotated parallel and whose metadata does not
    set the enable flag to true is rejected at the gate, whatever else the
    metadata and the environment say: [vectorizeLoop] returns false,
    leaves the IR as it is and calls no collaborator. *)
Theorem untriggered_loop_is_skipped
        (env : Collaborators) (L : Loop) (ir : IR) :
  isAnnotatedParallel L = false ->
  vectorizeEnable (GetLoopAnnotation ir L) <> Some true ->
  vectorizeLoop env L ir
  = (Done false, ir,
     [CallVectorizeLoop (loopId L); ReturnVectorizeLoop (loopId L) false]).
Proof.
  intros Hpar Hoff. apply vectorizeLoop_rejected_at_gate.
  unfold passesGate, effectiveAnnotation. rewrite Hpar. cbn zeta.
  destruct (vectorizeEnable (GetLoopAnnotation ir L)) as [[|] |];
    [now contradict Hoff | reflexivity | reflexivity].
Qed.

Lemma untriggered_loop_is_skipped_witness :
  vectorizeLoop Examples.force4Env (Examples.simpleLoop 0 false None)
                Examples.emptyIR
  = (Done false, Examples.emptyIR,
     [CallVectorizeLoop 0; ReturnVectorizeLoop 0 false]).
Proof.
  apply (untriggered_loop_is_skipped Examples.force4Env
           (Examples.simpleLoop 0 false None) Examples.emptyIR);
    [reflexivity | discriminate].
Defined.

(** X9: when the engine leaves the loop's persisted annotation as it finds
    it, a loop that was vectorized is not vectorized again: a second call
    of [vectorizeLoop], on the IR the first call left, returns false at
    the gate and leaves that IR as it is. *)
Theorem vectorized_loop_is_not_revisited
        (env : Collaborators) (L : Loop) (ir : IR) :
  (forall ir0 P w vecInfo vectorized,
      vectorize env ir0 P w vecInfo = Some vectorized ->
      loopMetadata vectorized !! loopId L = loopMetadata ir0 !! loopId L) ->
  outcome (vectorizeLoop env L ir) = Done true ->
  vectorizeLoop env L (finalIR (vectorizeLoop env L ir))
  = (Done false, finalIR (vectorizeLoop env L ir),
     [CallVectorizeLoop (loopId L); ReturnVectorizeLoop (loopId L) false]).
Proof.
  intros Hengine Hdone. apply marked_loop_stops_at_gate.
  pose proof (vectorizeLoop_cases env L ir) as Hcase.
  remember (vectorizeLoop env L ir) as r eqn:Hr. clear Hr.
  destruct Hcase as [| i | w | i w]; try discriminate;
    rewrite throughPrepare_outcome in Hdone; rewrite throughPrepare_finalIR;
    rewrite prepareAndVectorize_normal_form in *; cbn zeta in *;
    destruct (preparedLoop _) as [P |]; try discriminate;
    destruct (classifyHeaderPhis _ _ _ _ _ _ _); try discriminate;
    destruct (vectorize _ _ _ _ _) as [vectorized |] eqn:Hvec;
    try discriminate;
    unfold finalIR; cbn [fst snd];
    unfold GetLoopAnnotation; rewrite (Hengine _ _ _ _ _ Hvec);
    apply marked_before_engine.
Qed.

Lemma vectorized_loop_is_not_revisited_witness :
  vectorizeLoop Examples.plainEnv Examples.parallelLoop
    (finalIR (vectorizeLoop Examples.plainEnv Examples.parallelLoop
                            Examples.emptyIR))
  = (Done false,
     finalIR (vectorizeLoop Examples.plainEnv Examples.parallelLoop
                            Examples.emptyIR),
     [CallVectorizeLoop 0; ReturnVectorizeLoop 0 false]).
Proof.
  apply (vectorized_loop_is_not_revisited Examples.plainEnv
           Examples.parallelLoop Examples.emptyIR).
  - intros ir0 P w vecInfo vectorized Hvec. cbn in Hvec.
    now injection Hvec as <-.
  - reflexivity.
Defined.

(** ** More about the traversal *)

(** The nests inside a nest hold loops of that nest only. *)
Lemma nestsOf_descendants (N M : LoopNest) :
  In M (nestsOf N) -> incl (descendants M) (descendants N).
Proof.
  induction N as [L subs IH] using LoopNest_nested_ind. cbn [nestsOf].
  intros [<- | Hin]; [apply incl_refl |].
  apply in_flat_map in Hin as (S & HS & HM).
  rewrite Forall_forall in IH. specialize (IH S (proj2 (list_elem_of_In _ _) HS) HM).
  intros D HD. unfold descendants. cbn [nestSubLoops].
  apply in_flat_map. exists S. split; [assumption |].
  destruct S as [LS subsS]. cbn [loopsOfNest]. right. now apply IH.
Qed.

Lemma nestsOf_root (N M : LoopNest) :
  In M (nestsOf N) -> In (nestLoop M) (loopsOfNest N).
Proof.
  induction N as [L subs IH] using LoopNest_nested_ind. cbn [nestsOf loopsOfNest].
  intros [<- | Hin]; [now left |]. right.
  apply in_flat_map in Hin as (S & HS & HM).
  rewrite Forall_forall in IH.
  apply in_flat_map. exists S. split; [assumption |].
  now apply (IH S (proj2 (list_elem_of_In _ _) HS)).
Qed.

Lemma descendants_loops (N : LoopNest) :
  incl (descendants N) (loopsOfNest N).
Proof. destruct N as [L subs]. intros D HD. now right. Qed.

Section Pruning.

Context (env : Collaborators).

(** The traversal of a list of nests, from any IR and flag. *)
Lemma forEachLoop_top (loops : list LoopNest) (Changed : bool) (ir : IR) :
  visitedLoops
    (trace (forEachLoop (vectorizeLoopOrSubLoops env) loops Changed ir))
    `sublist_of` map loopId (flat_map loopsOfNest loops)
  /\ forall b,
      outcome (forEachLoop (vectorizeLoopOrSubLoops env) loops Changed ir)
      = Done b ->
      (b = true
       <-> Changed = true
           \/ exists l,
               vectorized
                 (trace (forEachLoop (vectorizeLoopOrSubLoops env) loops
                                     Changed ir)) l).
Proof.
  apply forEachLoop_sound, Forall_forall.
  intros S _. apply vectorizeLoopOrSubLoops_sound.
Qed.

Lemma visited_in_nest (N : LoopNest) (ir : IR) (l : nat) :
  In l (visitedLoops (trace (vectorizeLoopOrSubLoops env N ir))) ->
  In l (map loopId (loopsOfNest N)).
Proof.
  intros Hin. destruct (vectorizeLoopOrSubLoops_sound env N ir) as [Hsub _].
  apply list_elem_of_In. eapply elem_of_sublist; [| exact Hsub].
  now apply list_elem_of_In.
Qed.

Lemma visited_in_nests (loops : list LoopNest) (Changed : bool) (ir : IR)
      (l : nat) :
  In l (visitedLoops
          (trace (forEachLoop (vectorizeLoopOrSubLoops env) loops Changed ir))) ->
  In l (map loopId (flat_map loopsOfNest loops)).
Proof.
  intros Hin. destruct (forEachLoop_top loops Changed ir) as [Hsub _].
  apply list_elem_of_In. eapply elem_of_sublist; [| exact Hsub].
  now apply list_elem_of_In.
Qed.

(** A call shows only its own loop as vectorized. *)
Lemma vectorizeLoop_vectorized_id (L : Loop) (ir : IR) (l : nat) :
  vectorized (trace (vectorizeLoop env L ir)) l ->
  l = loopId L /\ outcome (vectorizeLoop env L ir) = Done true.
Proof.
  intros Hvec. split; [| apply vectorizeLoop_vectorized; now exists l].
  destruct (vectorizeLoop_shape env L ir) as (inner & Hinner & Ht).
  unfold vectorized in Hvec. rewrite Ht in Hvec.
  destruct Hvec as [H | Hin]; [discriminate |].
  apply in_app_or in Hin as [Hin | Hin].
  - apply Hinner in Hin. discriminate.
  - destruct (outcome _) as [r |]; [| destruct Hin].
    destruct Hin as [[= <- _] | []]. reflexivity.
Qed.

Lemma in_nest_ids (S M : LoopNest) (D : Loop) :
  In M (nestsOf S) ->
  In (loopId (nestLoop M)) (map loopId (loopsOfNest S))
  /\ (In D (descendants M) -> In (loopId D) (map loopId (loopsOfNest S))).
Proof.
  intros HM. split.
  - apply in_map. now apply nestsOf_root.
  - intros HD. apply in_map.
    apply descendants_loops. now apply (nestsOf_descendants S M).
Qed.

Lemma in_nests_ids (loops : list LoopNest) (S : LoopNest) (l : nat) :
  In S loops -> In l (map loopId (loopsOfNest S)) ->
  In l (map loopId (flat_map loopsOfNest loops)).
Proof.
  intros HS Hl. apply in_map_iff in Hl as (D & <- & HD).
  apply in_map. apply in_flat_map. now exists S.
Qed.

Lemma forEachLoop_prunes (loops : list LoopNest) :
  Forall (TraversalPrunes env) loops ->
  forall Changed ir,
    (forall l,
        vectorized
          (trace (forEachLoop (vectorizeLoopOrSubLoops env) loops Changed ir)) l ->
        In l (visitedLoops
                (trace (forEachLoop (vectorizeLoopOrSubLoops env) loops
                                    Changed ir))))
    /\ (NoDup (map loopId (flat_map loopsOfNest loops)) ->
        forall S M D,
          In S loops -> In M (nestsOf S) ->
          vectorized
            (trace (forEachLoop (vectorizeLoopOrSubLoops env) loops Changed ir))
            (loopId (nestLoop M)) ->
          In D (descendants M) ->
          ~ In (loopId D)
               (visitedLoops
                  (trace (forEachLoop (vectorizeLoopOrSubLoops env) loops
                                      Changed ir)))).
Proof.
  induction 1 as [| S0 rest HS0 _ IH]; intros Changed ir.
  - split; [intros l [] | intros _ S M D []].
  - rewrite forEachLoop_cons. destruct (HS0 ir) as [Ha0 Hb0].
    pose proof (visited_in_nest S0 ir) as Hin0.
    destruct (vectorizeLoopOrSubLoops env S0 ir) as [[[c |] ir1] t1];
      cbn in Ha0, Hb0, Hin0.
    + destruct (IH (Changed || c) ir1) as [Ha Hb].
      pose proof (visited_in_nests rest (Changed || c) ir1) as Hinr.
      destruct (forEachLoop _ rest (Changed || c) ir1) as [[o ir2] t2].
      cbn in Ha, Hb, Hinr |- *. split.
      * intros l Hvec. rewrite visitedLoops_app. apply in_or_app.
        apply in_app_or in Hvec as [Hvec | Hvec]; [left | right]; auto.
      * cbn [flat_map]. rewrite map_app. intros Hnd.
        apply NoDup_app in Hnd as (Hnd0 & Hdisj & Hndr).
        assert (forall x, In x (map loopId (loopsOfNest S0)) ->
                          In x (map loopId (flat_map loopsOfNest rest)) -> False)
          as Hapart.
        { intros x H0 Hr. apply (Hdisj x); now apply list_elem_of_In. }
        intros S M D HS HM Hvec HD.
        rewrite visitedLoops_app. intros Hvis.
        apply in_app_or in Hvec. apply in_app_or in Hvis.
        destruct (in_nest_ids S M D HM) as [HidM HidD]. specialize (HidD HD).
        destruct HS as [<- | HS].
        -- destruct Hvec as [Hvec | Hvec].
           ++ destruct Hvis as [Hvis | Hvis];
                [now apply (Hb0 Hnd0 M D) | eauto].
           ++ eauto.
        -- pose proof (in_nests_ids rest S _ HS HidM) as HidM'.
           pose proof (in_nests_ids rest S _ HS HidD) as HidD'.
           destruct Hvec as [Hvec | Hvec].
           ++ eauto.
           ++ destruct Hvis as [Hvis | Hvis];
                [eauto | now apply (Hb Hndr S M D)].
    + cbn. split; [exact Ha0 |].
      cbn [flat_map]. rewrite map_app. intros Hnd.
      apply NoDup_app in Hnd as (Hnd0 & Hdisj & Hndr).
      intros S M D [<- | HS] HM Hvec HD; [now apply (Hb0 Hnd0 M D) |].
      destruct (in_nest_ids S M D HM) as [HidM _].
      exfalso. apply (Hdisj (loopId (nestLoop M))).
      * apply list_elem_of_In. auto.
      * apply list_elem_of_In. now apply (in_nests_ids rest S).
Qed.

Lemma vectorizeLoopOrSubLoops_prunes (N : LoopNest) : TraversalPrunes env N.
Proof.
  induction N as [L subs IH] using LoopNest_nested_ind. intros ir.
  rewrite vectorizeLoopOrSubLoops_unfold.
  pose proof (vectorizeLoop_visits_itself env L ir) as Hself.
  pose proof (vectorizeLoop_vectorized_id L ir) as Hown.
  assert (forall M D, In M (nestsOf (Nest L subs)) -> In D (descendants M) ->
                      In (loopId D) (map loopId (flat_map loopsOfNest subs)))
    as Hinside.
  { intros M D HM HD. apply in_map.
    now apply (nestsOf_descendants (Nest L subs) M HM). }
  cbn [loopsOfNest map].
  destruct (vectorizeLoop env L ir) as [[[[|] |] ir1] t1]; cbn in Hself, Hown |- *.
  - split.
    + intros l Hvec. rewrite Hself. left. symmetry. now apply Hown.
    + intros Hnd M D HM _ HD. rewrite Hself. intros [Heq | []].
      apply NoDup_cons in Hnd as [Hfresh _]. apply Hfresh.
      rewrite Heq. apply list_elem_of_In. now apply (Hinside M D).
  - destruct (forEachLoop_prunes subs IH false ir1) as [Ha Hb].
    pose proof (visited_in_nests subs false ir1) as Hinr.
    destruct (forEachLoop _ subs false ir1) as [[o ir2] t2].
    cbn in Ha, Hb, Hinr |- *. split.
    + intros l Hvec. apply in_app_or in Hvec as [Hvec | Hvec].
      * now destruct (Hown l Hvec).
      * rewrite visitedLoops_app. apply in_or_app. right. auto.
    + intros Hnd M D HM Hvec HD. apply NoDup_cons in Hnd as [Hfresh Hnd].
      apply in_app_or in Hvec as [Hvec | Hvec];
        [now destruct (Hown _ Hvec) |].
      rewrite visitedLoops_app, Hself. intros [Heq | Hvis].
      * apply Hfresh. rewrite Heq. apply list_elem_of_In. now apply (Hinside M D).
      * destruct HM as [<- | HM].
        -- apply Hfresh. apply list_elem_of_In. auto.
        -- apply in_flat_map in HM as (S & HS & HM).
           now apply (Hb Hnd S M D).
  - split.
    + intros l Hvec. now destruct (Hown l Hvec).
    + intros _ M D _ Hvec. now destruct (Hown _ Hvec).
Qed.

End Pruning.

(** The loops of a function, outermost first, nest by nest. *)
Lemma run_enabled (env : Collaborators) (F : Function) (ir : IR) :
  getenv env "RV_DISABLE" = None ->
  IsHipSYCLKernel F = true ->
  run env F ir
  = forEachLoop (vectorizeLoopOrSubLoops env) (topLevelLoops F) false ir.
Proof. intros Hon Hkernel. unfold run. now rewrite Hon, Hkernel. Qed.

Lemma run_trace_cases (env : Collaborators) (F : Function) (ir : IR) :
  run env F ir = (Done false, ir, [])
  \/ run env F ir
     = forEachLoop (vectorizeLoopOrSubLoops env) (topLevelLoops F) false ir.
Proof.
  unfold run. destruct (isSet _); [now left |].
  destruct (IsHipSYCLKernel F); [now right | now left].
Qed.

Section RejectedNests.

Context (env : Collaborators).

Lemma forEachLoop_all_rejected (loops : list LoopNest) :
  Forall (fun N => forall ir,
              outcome (vectorizeLoopOrSubLoops env N ir) = Done false ->
              visitedLoops (trace (vectorizeLoopOrSubLoops env N ir))
              = map loopId (loopsOfNest N)) loops ->
  forall Changed ir,
    outcome (forEachLoop (vectorizeLoopOrSubLoops env) loops Changed ir)
    = Done false ->
    visitedLoops
      (trace (forEachLoop (vectorizeLoopOrSubLoops env) loops Changed ir))
    = map loopId (flat_map loopsOfNest loops).
Proof.
  induction 1 as [| S rest HS _ IH]; intros Changed ir; [reflexivity |].
  rewrite forEachLoop_cons. specialize (HS ir).
  destruct (vectorizeLoopOrSubLoops env S ir) as [[[c |] ir1] t1];
    [| discriminate].
  specialize (IH (Changed || c) ir1).
  pose proof (forEachLoop_top env rest (Changed || c) ir1) as [_ Hflag].
  destruct (forEachLoop _ rest (Changed || c) ir1) as [[o ir2] t2].
  cbn in HS, IH, Hflag |- *. intros ->.
  assert (c = false) as ->.
  { destruct c; [| reflexivity]. destruct (Hflag false eq_refl) as [_ Hback].
    symmetry. apply Hback. left. apply orb_true_r. }
  cbn [flat_map]. rewrite visitedLoops_app, map_app, HS, IH; reflexivity.
Qed.

Lemma nest_all_rejected (N : LoopNest) (ir : IR) :
  outcome (vectorizeLoopOrSubLoops env N ir) = Done false ->
  visitedLoops (trace (vectorizeLoopOrSubLoops env N ir))
  = map loopId (loopsOfNest N).
Proof.
  revert ir. induction N as [L subs IH] using LoopNest_nested_ind. intros ir.
  rewrite vectorizeLoopOrSubLoops_unfold.
  pose proof (vectorizeLoop_visits_itself env L ir) as Hself.
  destruct (vectorizeLoop env L ir) as [[[[|] |] ir1] t1]; try discriminate.
  pose proof (forEachLoop_all_rejected subs IH false ir1) as Hsubs.
  destruct (forEachLoop _ subs false ir1) as [[o ir2] t2].
  cbn in Hself, Hsubs |- *. intros Hdone.
  now rewrite visitedLoops_app, Hself, (Hsubs Hdone).
Qed.

End RejectedNests.

(** X10: a run of the pass that is enabled, on a kernel, and returns false
    has called [vectorizeLoop] on every loop of the function, nest by
    nest and outermost first: no loop is left out when nothing is
    vectorized. *)
Theorem run_without_change_tries_every_loop
        (env : Collaborators) (F : Function) (ir : IR) :
  getenv env "RV_DISABLE" = None ->
  IsHipSYCLKernel F = true ->
  outcome (run env F ir) = Done false ->
  visitedLoops (trace (run env F ir))
  = map loopId (flat_map loopsOfNest (topLevelLoops F)).
Proof.
  intros Hon Hkernel. rewrite run_enabled by assumption.
  apply forEachLoop_all_rejected, Forall_forall.
  intros N _ ir'. apply nest_all_rejected.
Qed.

Lemma run_without_change_tries_every_loop_witness :
  visitedLoops
    (trace (run Examples.plainEnv
                (mkFunction 7 [Examples.kernelTable 7]
                            [Nest (Examples.simpleLoop 1 false None)
                                  [Nest (Examples.simpleLoop 2 false None) []];
                             Nest (Examples.simpleLoop 3 false None) []])
                Examples.emptyIR))
  = map loopId
        (flat_map loopsOfNest
           (topLevelLoops
              (mkFunction 7 [Examples.kernelTable 7]
                          [Nest (Examples.simpleLoop 1 false None)
                                [Nest (Examples.simpleLoop 2 false None) []];
                           Nest (Examples.simpleLoop 3 false None) []]))).
Proof.
  apply run_without_change_tries_every_loop; reflexivity.
Defined.

(** X11: [run] calls [vectorizeLoop] only on loops of the function, in
    pre-order: never more calls than the function has loops, and no loop
    twice when the loops are distinct. *)
Theorem run_tries_each_loop_at_most_once
        (env : Collaborators) (F : Function) (ir : IR) :
  visitedLoops (trace (run env F ir))
    `sublist_of` map loopId (flat_map loopsOfNest (topLevelLoops F))
  /\ (length (visitedLoops (trace (run env F ir)))
      <= length (flat_map loopsOfNest (topLevelLoops F)))%nat
  /\ (NoDup (map loopId (flat_map loopsOfNest (topLevelLoops F))) ->
      NoDup (visitedLoops (trace (run env F ir)))).
Proof.
  assert (visitedLoops (trace (run env F ir))
            `sublist_of` map loopId (flat_map loopsOfNest (topLevelLoops F)))
    as Hsub.
  { destruct (run_trace_cases env F ir) as [-> | ->];
      [apply sublist_nil_l | apply forEachLoop_top]. }
  split; [exact Hsub |]. split.
  - apply sublist_length in Hsub. now rewrite length_map in Hsub.
  - intros Hnd. now apply (sublist_NoDup _ _ Hnd).
Qed.

(** X12: in a function whose loops are distinct, no loop strictly inside
    a loop that was vectorized is tried, at any depth: the pass never
    calls [vectorizeLoop] on a loop nested in a vectorized one. *)
Theorem nothing_inside_a_vectorized_loop_is_tried
        (env : Collaborators) (F : Function) (ir : IR)
        (S M : LoopNest) (D : Loop) :
  NoDup (map loopId (flat_map loopsOfNest (topLevelLoops F))) ->
  In S (topLevelLoops F) ->
  In M (nestsOf S) ->
  vectorized (trace (run env F ir)) (loopId (nestLoop M)) ->
  In D (descendants M) ->
  ~ visited (trace (run env F ir)) (loopId D).
Proof.
  intros Hnd HS HM Hvec HD Hvis. apply visited_visitedLoops in Hvis.
  destruct (run_trace_cases env F ir) as [Hrun | Hrun]; rewrite Hrun in *.
  - destruct Hvec.
  - assert (Forall (TraversalPrunes env) (topLevelLoops F)) as Hall.
    { apply Forall_forall. intros N _. apply vectorizeLoopOrSubLoops_prunes. }
    destruct (forEachLoop_prunes env (topLevelLoops F) Hall false ir) as [_ Hb].
    now apply (Hb Hnd S M D).
Qed.

Lemma nothing_inside_a_vectorized_loop_is_tried_witness :
  ~ visited
      (trace (run Examples.plainEnv
                  (mkFunction 7 [Examples.kernelTable 7]
                              [Nest (Examples.simpleLoop 1 true None)
                                    [Nest (Examples.simpleLoop 2 true None) []]])
                  Examples.emptyIR))
      (loopId (Examples.simpleLoop 2 true None)).
Proof.
  apply (nothing_inside_a_vectorized_loop_is_tried
           Examples.plainEnv
           (mkFunction 7 [Examples.kernelTable 7]
                       [Nest (Examples.simpleLoop 1 true None)
                             [Nest (Examples.simpleLoop 2 true None) []]])
           Examples.emptyIR
           (Nest (Examples.simpleLoop 1 true None)
                 [Nest (Examples.simpleLoop 2 true None) []])
           (Nest (Examples.simpleLoop 1 true None)
                 [Nest (Examples.simpleLoop 2 true None) []])
           (Examples.simpleLoop 2 true None)).
  - apply NoDup_ListNoDup. cbn. repeat constructor; cbn; intuition discriminate.
  - now left.
  - now left.
  - vm_compute. repeat first [left; reflexivity | right].
  - now left.
Defined.

(** ** The entry points *)

(** X13: with [RV_DISABLE] set in the environment, to any text, the empty
    one and 0 included, the pass does nothing, kernel or not: [run] and
    the legacy wrapper return false, the new wrapper reports all analyses
    preserved, the IR is left as it is and [vectorizeLoop] is not
    called. *)
Theorem pass_disabled_by_environment
        (env : Collaborators) (F : Function) (ir : IR) (text : string) :
  getenv env "RV_DISABLE" = Some text ->
  run env F ir = (Done false, ir, [])
  /\ LoopVectorizerLegacyPass_runOnFunction env F ir = (Done false, ir, [])
  /\ LoopVectorizerWrapperPass_run env F ir = (Done PreservedAll, ir, []).
Proof.
  intros Hoff.
  assert (run env F ir = (Done false, ir, [])) as Hrun
      by (unfold run; now rewrite Hoff).
  split; [exact Hrun |]. split; [exact Hrun |].
  unfold LoopVectorizerWrapperPass_run, bind. now rewrite Hrun.
Qed.

Lemma pass_disabled_by_environment_witness :
  run (mkCollaborators
         (fun name => if String.eqb name "RV_DISABLE" then Some "0" else None)
         size_max (fun _ _ _ => 8) (fun _ _ => Examples.noInfo)
         Examples.acceptingTransform
         (fun pat _ => ShapeStrided (strideValue pat))
         (fun _ _ => ShapeVarying) (fun ir _ _ _ => Some ir))
      Examples.kernelFunction Examples.emptyIR
  = (Done false, Examples.emptyIR, []).
Proof.
  apply (pass_disabled_by_environment
           (mkCollaborators
              (fun name => if String.eqb name "RV_DISABLE" then Some "0" else None)
              size_max (fun _ _ _ => 8) (fun _ _ => Examples.noInfo)
              Examples.acceptingTransform
              (fun pat _ => ShapeStrided (strideValue pat))
              (fun _ _ => ShapeVarying) (fun ir _ _ _ => Some ir))
           Examples.kernelFunction Examples.emptyIR "0").
  reflexivity.
Defined.

Lemma run_result (env : Collaborators) (F : Function) (ir : IR) (b : bool) :
  outcome (run env F ir) = Done b ->
  (b = true <-> exists l, vectorized (trace (run env F ir)) l).
Proof.
  destruct (run_trace_cases env F ir) as [-> | ->].
  - intros [= <-]. split; [discriminate | intros (l & [])].
  - intros Hb. destruct (forEachLoop_top env (topLevelLoops F) false ir)
      as [_ Hres].
    destruct (Hres b Hb) as [Hthere Hback]. split.
    + intros Hb1. now destruct (Hthere Hb1) as [[=] | Hex].
    + intros Hex. apply Hback. now right.
Qed.

(** X14: the new-pass-manager wrapper makes the calls [run] makes and
    leaves the IR [run] leaves; it reports no analysis preserved exactly
    when some call of [vectorizeLoop] returned true, and all analyses
    preserved exactly when none did; it fails only when [run] does. *)
Theorem wrapper_reports_what_run_did
        (env : Collaborators) (F : Function) (ir : IR) :
  trace (LoopVectorizerWrapperPass_run env F ir) = trace (run env F ir)
  /\ finalIR (LoopVectorizerWrapperPass_run env F ir) = finalIR (run env F ir)
  /\ match outcome (LoopVectorizerWrapperPass_run env F ir) with
     | Done PreservedNone => exists l, vectorized (trace (run env F ir)) l
     | Done PreservedAll =>
         outcome (run env F ir) = Done false
         /\ ~ exists l, vectorized (trace (run env F ir)) l
     | Fatal => outcome (run env F ir) = Fatal
     end.
Proof.
  pose proof (run_result env F ir) as Hres.
  unfold LoopVectorizerWrapperPass_run, bind.
  destruct (run env F ir) as [[[[|] |] ir'] t]; cbn in Hres |- *;
    rewrite ?app_nil_r; repeat split.
  - now apply (Hres true).
  - intros Hex. now apply (Hres false) in Hex.
Qed.

(** ** Reductions and the loop they are checked against *)

(** X22: [IsSupportedReduction] looks at the users of the elements only.
    A reduction all of whose users are elements is supported in every
    loop; one without elements is supported; and a reduction supported in
    a loop is supported in every loop with fewer blocks, so support can
    only be lost by checking against a larger loop. *)
Theorem supported_reduction_and_loop_size
        (ir : IR) (L1 L2 : Loop) (red : Reduction) :
  (elements red = [] -> IsSupportedReduction ir L1 red = true)
  /\ ((forall inst u, In inst (elements red) -> In u (users ir inst) ->
         exists i, u = ValInst i /\ count (elements red) i = true) ->
      IsSupportedReduction ir L1 red = true)
  /\ ((forall block, contains L1 block = true -> contains L2 block = true) ->
      IsSupportedReduction ir L2 red = true ->
      IsSupportedReduction ir L1 red = true).
Proof.
  unfold IsSupportedReduction. split; [now intros -> |]. split.
  - intros Hclosed. apply forallb_forall. intros inst Hinst.
    apply forallb_forall. intros u Hu.
    destruct (Hclosed inst u Hinst Hu) as (i & -> & ->).
    now rewrite andb_false_r.
  - intros Hsmaller Hbig. apply forallb_forall. intros inst Hinst.
    apply forallb_forall. intros u Hu.
    rewrite forallb_forall in Hbig. specialize (Hbig inst Hinst).
    rewrite forallb_forall in Hbig. specialize (Hbig u Hu).
    destruct u as [i | v]; [| discriminate].
    destruct (contains L1 (getParent i)) eqn:Hin1; [| reflexivity].
    now rewrite (Hsmaller _ Hin1) in Hbig.
Qed.

(** ** Function and phi annotations *)

Module AnnotationFacts.
Import Annotations.
#[local] Set Warnings "-clear-no-such-hyp".

(** X15: after [MarkAsCriticalSection] a function is a critical section,
    carries [NoInline] and no longer [AlwaysInline]; its other attributes
    and its metadata of every other kind are as before. *)
Theorem mark_makes_critical_section (func : LLVMFunction) :
  IsCriticalSection (MarkAsCriticalSection func) = true
  /\ (NoInline ∈ fnAttributes (MarkAsCriticalSection func))
  /\ (AlwaysInline ∉ fnAttributes (MarkAsCriticalSection func))
  /\ (forall n,
         OtherAttribute n ∈ fnAttributes (MarkAsCriticalSection func)
         <-> OtherAttribute n ∈ fnAttributes func)
  /\ (forall kind,
         kind <> rv_atomic_string ->
         fnMetadata (MarkAsCriticalSection func) !! kind
         = fnMetadata func !! kind).
Proof.
  unfold IsCriticalSection, MarkAsCriticalSection. cbn.
  rewrite lookup_insert_eq.
  split; [reflexivity |]. split; [set_solver |]. split; [set_solver |].
  split; [set_solver |].
  intros kind Hkind. now rewrite lookup_insert_ne.
Qed.

(** X16: marking twice is marking once, and a function marked while it
    carried [AlwaysInline] ends up as if it never had it. *)
Theorem mark_is_idempotent (func : LLVMFunction) :
  MarkAsCriticalSection (MarkAsCriticalSection func)
  = MarkAsCriticalSection func
  /\ MarkAsCriticalSection
       (mkLLVMFunction (fnAttributes func ∪ {[ AlwaysInline ]})
                       (fnMetadata func))
     = MarkAsCriticalSection
         (mkLLVMFunction (fnAttributes func ∖ {[ AlwaysInline ]})
                         (fnMetadata func)).
Proof.
  unfold MarkAsCriticalSection. cbn. split; f_equal.
  - apply set_eq. set_solver.
  - apply insert_insert_eq.
  - apply set_eq. set_solver.
Qed.

Section HintFacts.

Context (to_string : RedKind -> string)
        (from_string : string -> option RedKind).

(** X17: a reduction hint that is set is read back: when [from_string]
    knows the text [to_string] gives for a kind, [ReadReductionHint] after
    [SetReductionHint] passes its assertions and gives that kind, whatever
    hint the phi carried before. *)
Theorem reduction_hint_round_trip (phi : PHINode) (redKind : RedKind) :
  from_string (to_string redKind) = Some redKind ->
  ReadReductionHint from_string (SetReductionHint to_string phi redKind)
  = Passed redKind.
Proof.
  intros Hparse. unfold ReadReductionHint, SetReductionHint. cbn.
  now rewrite lookup_insert_eq, Hparse.
Qed.

(** X18: [SetReductionHint] replaces the hint and nothing else: a second
    hint overwrites the first, the instruction and the metadata of other
    kinds stay; a phi without a hint reads as [Bot]; and what is read
    after a hint was set is what [from_string] makes of the text written,
    an assertion failure when it does not know the text. *)
Theorem reduction_hint_update (phi : PHINode) (first second : RedKind) :
  SetReductionHint to_string (SetReductionHint to_string phi first) second
  = SetReductionHint to_string phi second
  /\ phiInstruction (SetReductionHint to_string phi second) = phiInstruction phi
  /\ (forall kind,
         kind <> rv_redkind_string ->
         phiMetadata (SetReductionHint to_string phi second) !! kind
         = phiMetadata phi !! kind)
  /\ (phiMetadata phi !! rv_redkind_string = None ->
      ReadReductionHint from_string phi = Passed Bot)
  /\ ReadReductionHint from_string (SetReductionHint to_string phi second)
     = match from_string (to_string second) with
       | Some kind => Passed kind
       | None => AssertionFailed
       end.
Proof.
  unfold SetReductionHint, ReadReductionHint. cbn.
  split; [f_equal; apply insert_insert_eq |]. split; [reflexivity |].
  split; [intros kind Hkind; now rewrite lookup_insert_ne |].
  split; [now intros -> |].
  now rewrite lookup_insert_eq.
Qed.

End HintFacts.

Lemma reduction_hint_round_trip_witness :
  ReadReductionHint
    (fun text => if String.eqb text "top" then Some Top else None)
    (SetReductionHint
       (fun kind => match kind with Top => "top" | _ => "other" end)
       (mkPHINode Examples.sumPhi {[ rv_redkind_string := [MDOtherOperand 0] ]})
       Top)
  = Passed Top.
Proof.
  apply (reduction_hint_round_trip
           (fun kind => match kind with Top => "top" | _ => "other" end)
           (fun text => if String.eqb text "top" then Some Top else None)).
  reflexivity.
Defined.

End AnnotationFacts.

(** ** Pass pipelines *)

Module PipelineFacts.
Import Pipeline.

(** X19: with [-rv-polish] only the polisher is registered at the start
    of the vectorizer, under the legacy and under the new pass manager,
    whatever the other options say; the passes already in the manager
    stay in front. *)
Theorem polish_registers_only_the_polisher
        (preparatory cleanup : list LegacyPass) (o : Options)
        (PM : list LegacyPass) (FPM : list FunctionPass) :
  rvOnlyPolish o = true ->
  registerLegacyRVPasses preparatory cleanup o PM = PM ++ [IRPolisherLegacyPass]
  /\ vectorizerStartEPCallback o FPM = FPM ++ [IRPolisherWrapperPass].
Proof.
  intros Hpolish. unfold registerLegacyRVPasses, vectorizerStartEPCallback.
  now rewrite Hpolish.
Qed.

Lemma polish_registers_only_the_polisher_witness :
  registerLegacyRVPasses [OtherLegacyPass "loop-simplify"]
    [OtherLegacyPass "adce"] (mkOptions true true true true true) []
  = [] ++ [IRPolisherLegacyPass]
  /\ vectorizerStartEPCallback (mkOptions true true true true true) []
     = [] ++ [IRPolisherWrapperPass].
Proof.
  apply (polish_registers_only_the_polisher
           [OtherLegacyPass "loop-simplify"] [OtherLegacyPass "adce"]
           (mkOptions true true true true true) [] []).
  reflexivity.
Defined.

(** X20: without [-rv-polish], whenever the loop vectorizer is registered
    (by [-rv-loopvec] or [-rv]) it comes after the preparatory passes and,
    under the legacy pass manager, before the cleanup passes: under the
    new pass manager it directly follows LoopSimplify, LCSSA and the loop
    exit canonicalizer. *)
Theorem loop_vectorizer_runs_on_normalised_loops
        (preparatory cleanup : list LegacyPass) (o : Options)
        (PM : list LegacyPass) (FPM : list FunctionPass) :
  rvOnlyPolish o = false ->
  shouldRunLoopVecPass o = true ->
  vectorizerStartEPCallback o FPM
  = FPM ++ [LoopSimplifyPass; LCSSAPass; LoopExitCanonicalizerWrapperPass;
            LoopVectorizerWrapperPass]
  /\ registerLegacyRVPasses preparatory cleanup o PM
     = PM ++ preparatory
          ++ (if shouldRunWFVPass o then [WFVLegacyPass] else [])
          ++ [LoopVectorizerLegacyPass] ++ cleanup.
Proof.
  intros Hpolish Hloop.
  assert (mayVectorize o = true) as Hmay.
  { unfold mayVectorize, shouldRunLoopVecPass in *.
    destruct (rvWFVEnabled o), (rvLoopVecEnabled o), (rvVectorizeEnabled o);
      try reflexivity; discriminate. }
  unfold vectorizerStartEPCallback, registerLegacyRVPasses, addPreparatoryPasses.
  rewrite Hpolish, Hmay, Hloop. split.
  - now rewrite <- app_assoc.
  - destruct (shouldRunWFVPass o); now rewrite <- ?app_assoc.
Qed.

Lemma loop_vectorizer_runs_on_normalised_loops_witness :
  vectorizerStartEPCallback (mkOptions false true false false false) []
  = [] ++ [LoopSimplifyPass; LCSSAPass; LoopExitCanonicalizerWrapperPass;
           LoopVectorizerWrapperPass]
  /\ registerLegacyRVPasses [OtherLegacyPass "loop-simplify"]
       [OtherLegacyPass "adce"] (mkOptions false true false false false) []
     = [] ++ [OtherLegacyPass "loop-simplify"]
          ++ (if shouldRunWFVPass (mkOptions false true false false false)
              then [WFVLegacyPass] else [])
          ++ [LoopVectorizerLegacyPass] ++ [OtherLegacyPass "adce"].
Proof.
  apply (loop_vectorizer_runs_on_normalised_loops
           [OtherLegacyPass "loop-simplify"] [OtherLegacyPass "adce"]
           (mkOptions false true false false false) [] []);
    reflexivity.
Defined.

(** X21: the callback at the end of the optimizer does not look at
    [-rv-polish]: it appends the whole-function vectorizer if [-rv-wfv] or
    [-rv] is set, then the lowering of the builtins if [-rv-lower] is set,
    then, if any vectorizer option is set, the always-inliner and the
    adaptor of aggressive instcombine and ADCE; with no option set it
    appends nothing, and neither do the other registrations. *)
Theorem optimizer_last_pipeline
        (preparatory cleanup : list LegacyPass) (o : Options)
        (MPM : list ModulePass) (PM : list LegacyPass) (FPM : list FunctionPass) :
  optimizerLastEPCallback o MPM
  = MPM
      ++ (if shouldRunWFVPass o then [WFVWrapperPass] else [])
      ++ (if rvLowerBuiltins o
          then [ModuleToFunctionPassAdaptor [LowerRVIntrinsicsWrapperPass]]
          else [])
      ++ (if mayVectorize o
          then [AlwaysInlinerPass;
                ModuleToFunctionPassAdaptor [AggressiveInstCombinePass; ADCEPass]]
          else [])
  /\ (mayVectorize o = false ->
      rvOnlyPolish o = false ->
      rvLowerBuiltins o = false ->
      optimizerLastEPCallback o MPM = MPM
      /\ vectorizerStartEPCallback o FPM = FPM
      /\ registerLegacyRVPasses preparatory cleanup o PM = PM
      /\ registerLastRVLegacyPasses o PM = PM).
Proof.
  split.
  - unfold optimizerLastEPCallback, shouldLowerBuiltins, addCleanupPasses,
      addLowerBuiltinsPass.
    destruct (shouldRunWFVPass o), (rvLowerBuiltins o), (mayVectorize o); cbn;
      rewrite <- ?app_assoc, ?app_nil_r; reflexivity.
  - intros Hmay Hpolish Hlower.
    assert (shouldRunWFVPass o = false /\ shouldRunLoopVecPass o = false)
      as [Hwfv Hloop].
    { unfold mayVectorize, shouldRunWFVPass, shouldRunLoopVecPass in *.
      destruct (rvWFVEnabled o), (rvLoopVecEnabled o), (rvVectorizeEnabled o);
        try discriminate; now split. }
    unfold optimizerLastEPCallback, vectorizerStartEPCallback,
      registerLegacyRVPasses, registerLastRVLegacyPasses, shouldLowerBuiltins.
    now rewrite Hmay, Hpolish, Hlower, Hwfv, Hloop.
Qed.

End PipelineFacts.
